(** * degenbot: swap mathematics of Solidly/Aerodrome pools and integer helpers

    A shallow embedding of

    - [degenbot/functions.py]                         ([evm_divide],
      [next_base_fee], [extract_argument_types_from_function_prototype]),
    - [degenbot/uniswap/v3_libraries/unsafe_math.py]  ([div_rounding_up]),
    - [degenbot/solidly/solidly_functions.py]         (the volatile and stable
      exact-in solvers and their Newton iterations),
    - [degenbot/aerodrome/pools.py]                   (the [AerodromeV2Pool]
      reserve setters and [calculate_tokens_out_from_tokens_in]),
    - [degenbot/types.py]                             (the subscriber set of
      [AbstractLiquidityPool]), with [FakeSubscriber] of [tests/conftest.py],
    - [transaction/uniswap_transaction.py]            ([_adjust_balance]).

    Python's [int] is unbounded, so it is [Z]; Python's [//] and [%] on
    integers are floor division and its remainder, which is what [Z.div] and
    [Z.modulo] compute for every non-zero divisor, and they raise
    [ZeroDivisionError] on a zero divisor, which is modelled explicitly. *)

From Stdlib Require Import ZArith Lia String Ascii List QArith Qround.
From Stdlib Require Import DecimalString.
From stdpp Require Import base gmap strings.

Local Open Scope Z_scope.

(** ** Exceptions and the error monad *)

(** The exception classes the modelled functions raise.  The payload is the
    message the source passes to the constructor. *)
Inductive exn : Type :=
| ZeroDivisionError
| ValueError (msg : string)
| DegenbotValueError (msg : string)
| EVMRevertError (msg : string)
| ZeroSwapError (msg : string)
| ConvergenceError (msg : string).
(* [ConvergenceError] is the class the specification names for a failed
   Newton iteration; no [raise] in the sources mentions it. *)

Inductive result (A : Type) : Type :=
| Ok (a : A)
| Raise (e : exn).
Arguments Ok {A} a.
Arguments Raise {A} e.

Global Instance result_ret : MRet result := fun A a => Ok a.

Global Instance result_bind : MBind result := fun A B k m =>
  match m with
  | Ok a => k a
  | Raise e => Raise e
  end.

(** [try: body except ZeroDivisionError: raise e] *)
Definition except_ZeroDivisionError {A : Type} (body : result A) (e : exn) : result A :=
  match body with
  | Raise ZeroDivisionError => Raise e
  | r => r
  end.

(** Python's [a // b] on integers. *)
Definition floordiv (a b : Z) : result Z :=
  if b =? 0 then Raise ZeroDivisionError else Ok (a / b).

(** [int(b)] for a [bool] used as a summand. *)
Definition int_of_bool (b : bool) : Z := if b then 1 else 0.

(** [str(n)] for an integer, as an f-string interpolates it. *)
Definition str_of_int (n : Z) : string := NilZero.string_of_int (Z.to_int n).

(** [fractions.Fraction]: the denominator is always positive. *)
Record Fraction : Type := mkFraction {
  numerator : Z;
  denominator : positive
}.

(** ** degenbot/functions.py *)

Definition evm_divide (numerator denominator : Z) : result Z :=
  if numerator <? 0
  then q ← floordiv (- numerator) denominator; Ok (- q)
  else floordiv numerator denominator.

(** ** degenbot/uniswap/v3_libraries/unsafe_math.py *)

Definition div_rounding_up (x y : Z) : Z :=
  (if y =? 0 then 0 else x / y)
  + int_of_bool (0 <? (if y =? 0 then 0 else x mod y)).

(** ** degenbot/solidly/solidly_functions.py *)

(** Modelled from the spec: [degenbot/constants.py] is not among the sources;
    [MIN_UINT256] and [MAX_UINT256] are the bounds of the range check for
    unsigned 256-bit values. *)
Definition MIN_UINT256 : Z := 0.
Definition MAX_UINT256 : Z := 2 ^ 256 - 1.

Definition raise_if_invalid_uint256 (number : Z) : result unit :=
  if negb ((MIN_UINT256 <=? number) && (number <=? MAX_UINT256))
  then Raise (EVMRevertError ("underflow/overflow for " ++ str_of_int number))
  else Ok tt.

Definition _d (x0 y : Z) : Z :=
  (3 * x0 * ((y * y) / 10 ^ 18)) / 10 ^ 18
  + ((((x0 * x0) / 10 ^ 18) * x0) / 10 ^ 18).

Definition _f_aerodrome (x0 y : Z) : Z :=
  let _a := (x0 * y) / 10 ^ 18 in
  let _b := (x0 * x0) / 10 ^ 18 + (y * y) / 10 ^ 18 in
  (_a * _b) / 10 ^ 18.

Definition _f_camelot (x0 y : Z) : Z :=
  (x0 * ((((y * y) / 10 ^ 18) * y) / 10 ^ 18)) / 10 ^ 18
  + (((((x0 * x0) / 10 ^ 18) * x0) / 10 ^ 18) * y) / 10 ^ 18.

Definition _k_aerodrome (balance_0 balance_1 decimals_0 decimals_1 : Z) : result Z :=
  _x ← floordiv (balance_0 * 10 ^ 18) decimals_0;
  _y ← floordiv (balance_1 * 10 ^ 18) decimals_1;
  let _a := (_x * _y) / 10 ^ 18 in
  let _b := (_x * _x) / 10 ^ 18 + (_y * _y) / 10 ^ 18 in
  _ ← raise_if_invalid_uint256 (_a * _b);
  Ok ((_a * _b) / 10 ^ 18).

(** What one pass through the body of a [for] loop leaves behind: the loop
    goes on with a new [y], or the function returns. *)
Inductive loop_step : Type :=
| Continue (y : Z)
| Return (r : Z).

(** [for _ in range(n): body] with the loop variable unused and [y] the only
    variable the body assigns; [after] is the code that follows the loop. *)
Fixpoint for_range (n : nat) (body : Z -> result loop_step)
    (after : Z -> result Z) (y : Z) : result Z :=
  match n with
  | O => after y
  | S n' =>
      s ← body y;
      match s with
      | Return r => Ok r
      | Continue y' => for_range n' body after y'
      end
  end.

(** The value of [y] at the start of pass [i] of the loop (passes count from
    0), defined when every earlier pass went on to the next one. *)
Fixpoint loop_iterate (body : Z -> result loop_step) (i : nat) (y : Z) : option Z :=
  match i with
  | O => Some y
  | S i' =>
      match body y with
      | Ok (Continue y') => loop_iterate body i' y'
      | _ => None
      end
  end.

(** The number of passes [for_range n body] makes through its body. *)
Fixpoint loop_passes (body : Z -> result loop_step) (n : nat) (y : Z) : nat :=
  match n with
  | O => O
  | S n' =>
      S (match body y with
         | Ok (Continue y') => loop_passes body n' y'
         | _ => O
         end)
  end.

(** The body of the loop of [_get_y_aerodrome]. *)
Definition _get_y_aerodrome_body (x0 xy decimals0 decimals1 y : Z) : result loop_step :=
  let k := _f_aerodrome x0 y in
  if k <? xy then
    dy ← floordiv ((xy - k) * 10 ^ 18) (_d x0 y);
    if dy =? 0 then
      if k =? xy then Ok (Return y)
      else
        k1 ← _k_aerodrome x0 (y + 1) decimals0 decimals1;
        if xy <? k1 then Ok (Return (y + 1))
        else Ok (Continue (y + 1))
    else Ok (Continue (y + dy))
  else
    dy ← floordiv ((k - xy) * 10 ^ 18) (_d x0 y);
    if dy =? 0 then
      if (k =? xy) || (_f_aerodrome x0 (y - 1) <? xy) then Ok (Return y)
      else Ok (Continue (y - 1))
    else Ok (Continue (y - dy)).

Definition _get_y_aerodrome (x0 xy y decimals0 decimals1 : Z) : result Z :=
  for_range 255 (_get_y_aerodrome_body x0 xy decimals0 decimals1)
    (fun _ => Raise (EVMRevertError "Failed to converge on a value for y")) y.

(** The first half of the loop body of [_get_y_camelot]: the Newton update
    of [y]. *)
Definition _get_y_camelot_update (x_0 xy y : Z) : result Z :=
  let k := _f_camelot x_0 y in
  if k <? xy then
    dy ← floordiv ((xy - k) * 10 ^ 18) (_d x_0 y);
    Ok (y + dy)
  else
    dy ← floordiv ((k - xy) * 10 ^ 18) (_d x_0 y);
    Ok (y - dy).

(** The whole loop body of [_get_y_camelot]: the update, then the comparison
    of the new [y] with [y_prev]. *)
Definition _get_y_camelot_body (x_0 xy y : Z) : result loop_step :=
  let y_prev := y in
  y ← _get_y_camelot_update x_0 xy y;
  if y_prev <? y then
    if y - y_prev <=? 1 then Ok (Return y) else Ok (Continue y)
  else if y_prev - y <=? 1 then Ok (Return y)
  else Ok (Continue y).

Definition _get_y_camelot (x_0 xy y : Z) : result Z :=
  for_range 255 (_get_y_camelot_body x_0 xy) (fun y => Ok y) y.

(** The body of the [try] block of [solidly_calc_exact_in_stable]. *)
Definition solidly_calc_exact_in_stable_body
    (amount_in token_in reserves0 reserves1 decimals0 decimals1 : Z)
    (fee : Fraction) : result Z :=
  let amount_in_after_fee :=
    amount_in - (amount_in * numerator fee) / Z.pos (denominator fee) in
  xy ← _k_aerodrome reserves0 reserves1 decimals0 decimals1;
  scaled_reserves_0 ← floordiv (reserves0 * 10 ^ 18) decimals0;
  scaled_reserves_1 ← floordiv (reserves1 * 10 ^ 18) decimals1;
  '(reserves_a, reserves_b, amount_in_after_fee) ←
    (if token_in =? 0 then
       a ← floordiv (amount_in_after_fee * 10 ^ 18) decimals0;
       Ok (scaled_reserves_0, scaled_reserves_1, a)
     else if token_in =? 1 then
       a ← floordiv (amount_in_after_fee * 10 ^ 18) decimals1;
       Ok (scaled_reserves_1, scaled_reserves_0, a)
     else Raise (ValueError "Invalid token_in identifier"));
  y_new ← _get_y_aerodrome (amount_in_after_fee + reserves_a) xy reserves_b
            decimals0 decimals1;
  let y := reserves_b - y_new in
  Ok ((y * (if token_in =? 0 then decimals1 else decimals0)) / 10 ^ 18).

Definition solidly_calc_exact_in_stable
    (amount_in token_in reserves0 reserves1 decimals0 decimals1 : Z)
    (fee : Fraction) : result Z :=
  except_ZeroDivisionError
    (solidly_calc_exact_in_stable_body
       amount_in token_in reserves0 reserves1 decimals0 decimals1 fee)
    (EVMRevertError "Division by zero").

Definition solidly_calc_exact_in_volatile
    (amount_in token_in reserves0 reserves1 : Z) (fee : Fraction) : result Z :=
  let amount_in_after_fee :=
    amount_in - (amount_in * numerator fee) / Z.pos (denominator fee) in
  '(reserves_a, reserves_b) ←
    (if token_in =? 0 then Ok (reserves0, reserves1)
     else if token_in =? 1 then Ok (reserves1, reserves0)
     else Raise (ValueError "Invalid token_in identifier"));
  floordiv (amount_in_after_fee * reserves_b) (reserves_a + amount_in_after_fee).

(** ** degenbot/aerodrome/pools.py *)

(** The part of [Erc20Token] the pool uses.  Tokens compare by address
    ([AbstractErc20Token.__eq__]). *)
Record Erc20Token : Type := mkErc20Token {
  token_address : string;
  decimals : Z
}.

Definition token_eqb (t1 t2 : Erc20Token) : bool :=
  String.eqb (token_address t1) (token_address t2).

(** Modelled from the spec: the declaration of [AerodromeV2PoolState]
    ([degenbot/aerodrome/types.py]) is not among the sources.  It is an
    immutable pool state with the fields the constructor calls of [pools.py]
    pass, which are those of the frozen dataclass [UniswapV2PoolState] of
    [degenbot/uniswap/types.py]. *)
Record AerodromeV2PoolState : Type := mkAerodromeV2PoolState {
  pool : string;
  reserves_token0 : Z;
  reserves_token1 : Z
}.

(** State objects live in a store and are referred to by their identity.  A
    frozen dataclass has no field assignment, so the only operations on the
    store are allocation and lookup. *)
Definition loc : Type := positive.

Definition alloc (h : gmap loc AerodromeV2PoolState) (s : AerodromeV2PoolState)
  : loc * gmap loc AerodromeV2PoolState :=
  let l := fresh (dom h) in (l, <[l := s]> h).

(** The attributes of an [AerodromeV2Pool] the modelled methods touch;
    [_state] holds a reference to the current state object. *)
Record AerodromeV2Pool : Type := mkAerodromeV2Pool {
  address : string;
  token0 : Erc20Token;
  token1 : Erc20Token;
  stable : bool;
  fee : Fraction;
  _state : loc
}.

Definition set__state (self : AerodromeV2Pool) (l : loc) : AerodromeV2Pool :=
  {| address := address self; token0 := token0 self; token1 := token1 self;
     stable := stable self; fee := fee self; _state := l |}.

Module AerodromeV2Pool_methods.

(** The [state] property. *)
Definition state (h : gmap loc AerodromeV2PoolState) (self : AerodromeV2Pool)
  : option AerodromeV2PoolState :=
  h !! _state self.

(** The [state] setter, applied to a freshly constructed state object. *)
Definition set_state (h : gmap loc AerodromeV2PoolState) (self : AerodromeV2Pool)
    (new_state : AerodromeV2PoolState)
  : gmap loc AerodromeV2PoolState * AerodromeV2Pool :=
  let '(l, h') := alloc h new_state in (h', set__state self l).

(** The [reserves_token0] property. *)
Definition get_reserves_token0 (h : gmap loc AerodromeV2PoolState)
    (self : AerodromeV2Pool) : option Z :=
  reserves_token0 <$> state h self.

(** The [reserves_token0] setter. *)
Definition set_reserves_token0 (h : gmap loc AerodromeV2PoolState)
    (self : AerodromeV2Pool) (new_reserves : Z)
  : option (gmap loc AerodromeV2PoolState * AerodromeV2Pool) :=
  current_state ← state h self;
  Some (set_state h self
          {| pool := pool current_state;
             reserves_token0 := new_reserves;
             reserves_token1 := reserves_token1 current_state |}).

(** The [reserves_token1] property. *)
Definition get_reserves_token1 (h : gmap loc AerodromeV2PoolState)
    (self : AerodromeV2Pool) : option Z :=
  reserves_token1 <$> state h self.

(** The [reserves_token1] setter. *)
Definition set_reserves_token1 (h : gmap loc AerodromeV2PoolState)
    (self : AerodromeV2Pool) (new_reserves : Z)
  : option (gmap loc AerodromeV2PoolState * AerodromeV2Pool) :=
  current_state ← state h self;
  Some (set_state h self
          {| pool := pool current_state;
             reserves_token0 := reserves_token0 current_state;
             reserves_token1 := new_reserves |}).

Section Facade.
(** The two solvers [pools.py] imports, [calc_exact_in_stable] from
    [degenbot/aerodrome/functions.py] and [general_calc_exact_in_volatile]
    from [degenbot/solidly/solidly_functions.py], are not defined in the
    sources at hand; the entry point is parametric in them. *)
Variable calc_exact_in_stable : Z -> Z -> Z -> Z -> Z -> Z -> Fraction -> result Z.
Variable general_calc_exact_in_volatile : Z -> Z -> Z -> Z -> Fraction -> result Z.

(** [None] stands for a pool whose [_state] refers to no object of the
    store, which no Python execution produces. *)
Definition calculate_tokens_out_from_tokens_in
    (h : gmap loc AerodromeV2PoolState) (self : AerodromeV2Pool)
    (token_in : Erc20Token) (token_in_quantity : Z)
    (override_state : option AerodromeV2PoolState) : option (result Z) :=
  if negb (token_eqb token_in (token0 self) || token_eqb token_in (token1 self))
  then Some (Raise (DegenbotValueError "token_in not recognized."))
  else
    let TOKEN_IN := if token_eqb token_in (token0 self) then 0 else 1 in
    if token_in_quantity <=? 0
    then Some (Raise (ZeroSwapError "token_in_quantity must be positive"))
    else
      reserves_0 ← match override_state with
                   | Some o => Some (reserves_token0 o)
                   | None => get_reserves_token0 h self
                   end;
      reserves_1 ← match override_state with
                   | Some o => Some (reserves_token1 o)
                   | None => get_reserves_token1 h self
                   end;
      Some (if stable self then
              calc_exact_in_stable token_in_quantity TOKEN_IN
                reserves_0 reserves_1
                (10 ^ decimals (token0 self)) (10 ^ decimals (token1 self))
                (fee self)
            else
              general_calc_exact_in_volatile token_in_quantity TOKEN_IN
                reserves_0 reserves_1 (fee self)).
End Facade.

End AerodromeV2Pool_methods.

(** ** Quantities the properties below speak of *)

(** A balance in the 18-decimal fixed point of the stable curve, when
    [decimals] is not zero. *)
Definition scaled (balance decimals : Z) : Z := (balance * 10 ^ 18) / decimals.

(** The input amount once the fee has been taken. *)
Definition after_fee (amount_in : Z) (fee : Fraction) : Z :=
  amount_in - (amount_in * numerator fee) / Z.pos (denominator fee).

(** The curve invariant at the scaled reserves a stable swap leaves behind:
    the reserve of the input token grown by the scaled post-fee input, the
    reserve of the output token shrunk by the scaled amount paid out. *)
Definition post_swap_k (amount_in token_in reserves0 reserves1 decimals0 decimals1 : Z)
    (fee : Fraction) (amount_out : Z) : Z :=
  if token_in =? 0 then
    _f_aerodrome (scaled (after_fee amount_in fee) decimals0 + scaled reserves0 decimals0)
                 (scaled reserves1 decimals1 - scaled amount_out decimals1)
  else
    _f_aerodrome (scaled (after_fee amount_in fee) decimals1 + scaled reserves1 decimals1)
                 (scaled reserves0 decimals0 - scaled amount_out decimals0).

(** A volatile WETH/USDC pool and its state, for the examples. *)
Definition WETH : Erc20Token :=
  mkErc20Token "0x4200000000000000000000000000000000000006" 18.
Definition USDC : Erc20Token :=
  mkErc20Token "0x833589fCD6eDb6E08f4c7C32D4f71b54bdA02913" 6.
Definition DAI : Erc20Token :=
  mkErc20Token "0x50c5725949A6F0c72E6C4a641F24049A917DB0Cb" 18.

Definition example_pool : AerodromeV2Pool :=
  mkAerodromeV2Pool "0xcDAC0d6c6C59727a65F871236188350531885C43" WETH USDC false
    (mkFraction 3 1000) 1%positive.

Definition example_state : AerodromeV2PoolState :=
  mkAerodromeV2PoolState "0xcDAC0d6c6C59727a65F871236188350531885C43" 1000 2000.

(** ** degenbot/functions.py, further functions *)

(** [next_base_fee]; the keyword arguments are passed explicitly, [None] for
    [min_base_fee], 8 and 2 being the defaults of the last two. *)
Definition next_base_fee (parent_base_fee parent_gas_used parent_gas_limit : Z)
    (min_base_fee : option Z)
    (base_fee_max_change_denominator elasticity_multiplier : Z) : result Z :=
  last_gas_target ← floordiv parent_gas_limit elasticity_multiplier;
  _next_base_fee ←
    (if parent_gas_used =? last_gas_target then Ok parent_base_fee
     else if last_gas_target <? parent_gas_used then
       let gas_used_delta := parent_gas_used - last_gas_target in
       q ← floordiv (parent_base_fee * gas_used_delta) last_gas_target;
       q ← floordiv q base_fee_max_change_denominator;
       let base_fee_delta := Z.max q 1 in
       Ok (parent_base_fee + base_fee_delta)
     else
       let gas_used_delta := last_gas_target - parent_gas_used in
       q ← floordiv (parent_base_fee * gas_used_delta) last_gas_target;
       base_fee_delta ← floordiv q base_fee_max_change_denominator;
       Ok (parent_base_fee - base_fee_delta));
  Ok (match min_base_fee with
      | Some m => if m =? 0 then _next_base_fee else Z.max m _next_base_fee
      | None => _next_base_fee
      end).

(** [s.find(c)] for a one-character text [c]: the index of its first
    occurrence, or -1. *)
Fixpoint str_find (c : ascii) (s : string) : Z :=
  match s with
  | EmptyString => -1
  | String a s' =>
      if Ascii.eqb a c then 0
      else let i := str_find c s' in if i <? 0 then -1 else i + 1
  end.

(** How a slice bound is read against a text of length [len]: a negative
    bound counts from the end, and every bound is clipped to the text. *)
Definition slice_bound (len i : Z) : Z :=
  if i <? 0 then Z.max (i + len) 0 else Z.min i len.

(** [s[start:stop]] *)
Definition str_slice (s : string) (start stop : Z) : string :=
  let len := Z.of_nat (String.length s) in
  let lo := slice_bound len start in
  let hi := slice_bound len stop in
  substring (Z.to_nat lo) (Z.to_nat (hi - lo)) s.

(** [s.split(c)] for a one-character separator [c]. *)
Fixpoint str_split (c : ascii) (s : string) : list string :=
  match s with
  | EmptyString => [EmptyString]
  | String a s' =>
      if Ascii.eqb a c then EmptyString :: str_split c s'
      else match str_split c s' with
           | piece :: pieces => String a piece :: pieces
           | [] => [String a EmptyString]
           end
  end.

Definition extract_argument_types_from_function_prototype
    (function_prototype : string) : list string :=
  let function_args :=
    str_slice function_prototype
      (str_find "(" function_prototype + 1) (str_find ")" function_prototype) in
  if String.eqb function_args "" then [] else str_split "," function_args.

(** [sep.join(pieces)]; the source does not call it, the properties of the
    function above are stated with it. *)
Definition str_join (sep : string) (pieces : list string) : string :=
  String.concat sep pieces.

(** ** transaction/uniswap_transaction.py *)

(** [UniswapTransaction._adjust_balance], on the [balance] dictionary of the
    transaction.  [toChecksumAddress] stands for [Web3.toChecksumAddress],
    which raises on a text that is no address; the [print] is left out. *)
Definition _adjust_balance (toChecksumAddress : string -> result string)
    (balance : gmap string Z) (token : string) (amount : Z)
  : result (gmap string Z) :=
  _token ← toChecksumAddress token;
  let balance :=
    match balance !! _token with
    | Some _ => balance
    | None => <[_token := 0]> balance
    end in
  let balance := <[_token := default 0 (balance !! _token) + amount]> balance in
  Ok (if default 0 (balance !! _token) =? 0 then delete _token balance else balance).

(** ** degenbot/types.py and tests/conftest.py *)

(** [AbstractLiquidityPool.subscribe]: [self._subscribers.add(subscriber)],
    subscribers being objects known by their identity. *)
Definition subscribe (_subscribers : gset loc) (subscriber : loc) : gset loc :=
  {[ subscriber ]} ∪ _subscribers.

(** [AbstractLiquidityPool.unsubscribe]:
    [self._subscribers.discard(subscriber)]. *)
Definition unsubscribe (_subscribers : gset loc) (subscriber : loc) : gset loc :=
  _subscribers ∖ {[ subscriber ]}.

(** [FakeSubscriber.notify] of [tests/conftest.py]: the record of sender and
    message is appended to the inbox of the subscriber.  The store maps every
    [FakeSubscriber] to its inbox; messages are opaque. *)
Definition FakeSubscriber_notify {Message : Type} (self publisher : loc)
    (message : Message) (inboxes : gmap loc (list (loc * Message)))
  : gmap loc (list (loc * Message)) :=
  alter (fun inbox => inbox ++ [(publisher, message)]) self inboxes.

(** [AbstractLiquidityPool._notify_subscribers]: one [notify] per element of
    the set, in the order the set yields them. *)
Definition _notify_subscribers {Message : Type} (_subscribers : gset loc)
    (self : loc) (message : Message) (inboxes : gmap loc (list (loc * Message)))
  : gmap loc (list (loc * Message)) :=
  set_fold (fun subscriber acc => FakeSubscriber_notify subscriber self message acc)
    inboxes _subscribers.

(** * Properties *)

Import AerodromeV2Pool_methods.

(** ** Floor, ceiling and truncation of an exact quotient *)

Lemma Qfloor_quotient (n d : Z) :
  d <> 0 -> Qfloor (inject_Z n / inject_Z d) = n / d.
Proof.
  intros Hd. unfold Qdiv, Qinv, Qmult, inject_Z, Qfloor; simpl.
  destruct d as [|p|p]; simpl; [lia | |].
  - now rewrite Z.mul_1_r.
  - rewrite <- (Z.div_opp_opp n (Z.neg p)) by lia.
    f_equal; lia.
Qed.

Lemma Qceiling_quotient (n d : Z) :
  d <> 0 -> Qceiling (inject_Z n / inject_Z d) = - ((- n) / d).
Proof.
  intros Hd. unfold Qceiling. f_equal.
  rewrite <- (Qfloor_quotient (- n) d Hd).
  apply Qfloor_comp. rewrite inject_Z_opp. field.
  intros H. apply Hd.
  unfold Qeq in H; simpl in H. lia.
Qed.

Lemma floordiv_Ok (a b : Z) : b <> 0 -> floordiv a b = Ok (a / b).
Proof. intros Hb. unfold floordiv. now destruct (Z.eqb_spec b 0). Qed.

Lemma floordiv_inv (a b q : Z) : floordiv a b = Ok q -> b <> 0 /\ q = a / b.
Proof.
  unfold floordiv. destruct (Z.eqb_spec b 0); [discriminate|].
  intros [= <-]. auto.
Qed.

Lemma floordiv_not_ZeroSwapError (a b : Z) (msg : string) :
  floordiv a b <> Raise (ZeroSwapError msg).
Proof. unfold floordiv. destruct (b =? 0); discriminate. Qed.

(** ** [evm_divide] *)

(** On a positive denominator [evm_divide] truncates. *)
Lemma evm_divide_positive_denominator (n d : Z) :
  0 < d -> evm_divide n d = Ok (Z.quot n d).
Proof.
  intros Hd. unfold evm_divide.
  destruct (Z.ltb_spec n 0) as [Hn|Hn].
  - rewrite floordiv_Ok by lia. cbn. f_equal.
    rewrite <- (Z.opp_involutive n) at 2.
    rewrite Z.quot_opp_l by lia. f_equal.
    symmetry. apply Z.quot_div_nonneg; lia.
  - rewrite floordiv_Ok by lia. f_equal.
    symmetry. apply Z.quot_div_nonneg; lia.
Qed.

(** C9: [evm_divide] is documented to round the quotient toward zero for every
    non-zero denominator.  On a negative denominator it does not: 7 divided by
    -2 gives -4 where truncation gives -3, and -7 divided by -2 gives 4 where
    truncation gives 3. *)
Theorem evm_divide_negative_denominator :
  evm_divide 7 (-2) = Ok (-4) /\ Z.quot 7 (-2) = -3
  /\ evm_divide (-7) (-2) = Ok 4 /\ Z.quot (-7) (-2) = 3.
Proof. repeat split; reflexivity. Qed.

(** ** [div_rounding_up] *)

(** C10: for [x >= 0], [div_rounding_up x 0] is 0, and for [y > 0] the result
    is the ceiling of the exact quotient [x / y], that is the least [c] with
    [x <= c * y]. *)
Theorem div_rounding_up_total_and_ceiling (x y : Z) :
  0 <= x ->
  div_rounding_up x 0 = 0
  /\ (0 < y ->
      div_rounding_up x y = Qceiling (inject_Z x / inject_Z y)
      /\ (div_rounding_up x y - 1) * y < x <= div_rounding_up x y * y).
Proof.
  intros Hx. split; [reflexivity|]. intros Hy. unfold div_rounding_up.
  destruct (Z.eqb_spec y 0) as [->|_]; [lia|].
  pose proof (Z.div_mod x y ltac:(lia)) as Hdm.
  pose proof (Z.mod_pos_bound x y Hy) as Hm.
  assert (Hc : x / y + int_of_bool (0 <? x mod y) = - ((- x) / y)).
  { destruct (Z.ltb_spec 0 (x mod y)) as [Hr|Hr]; cbn [int_of_bool].
    - rewrite Z.div_opp_l_nz by lia. lia.
    - rewrite Z.div_opp_l_z by lia. lia. }
  split.
  - rewrite Qceiling_quotient by lia. exact Hc.
  - destruct (Z.ltb_spec 0 (x mod y)) as [Hr|Hr]; cbn [int_of_bool]; nia.
Qed.

Lemma div_rounding_up_total_and_ceiling_witness :
  div_rounding_up 7 0 = 0 /\ div_rounding_up 7 2 = 4 /\ div_rounding_up 8 2 = 4.
Proof.
  split; [|split].
  - apply (div_rounding_up_total_and_ceiling 7 2). lia.
  - destruct (div_rounding_up_total_and_ceiling 7 2 ltac:(lia)) as (_ & H).
    destruct (H ltac:(lia)) as (_ & Hb). lia.
  - destruct (div_rounding_up_total_and_ceiling 8 2 ltac:(lia)) as (_ & H).
    destruct (H ltac:(lia)) as (_ & Hb). lia.
Defined.

(** ** The error monad *)

Lemma bind_Ok_inv {A B : Type} (m : result A) (k : A -> result B) (b : B) :
  m ≫= k = Ok b -> exists a, m = Ok a /\ k a = Ok b.
Proof. destruct m as [a|e]; cbn; [eauto | discriminate]. Qed.

Ltac inv_bind H :=
  let a := fresh "a" in
  let Ha := fresh "H" a in
  apply bind_Ok_inv in H; destruct H as (a & Ha & H).

Lemma except_ZeroDivisionError_Ok {A : Type} (body : result A) (e : exn) (a : A) :
  except_ZeroDivisionError body e = Ok a -> body = Ok a.
Proof. destruct body as [a'|[]]; cbn; congruence. Qed.

Lemma except_ZeroDivisionError_caught {A : Type} (body : result A) (e : exn) :
  body = Raise ZeroDivisionError -> except_ZeroDivisionError body e = Raise e.
Proof. now intros ->. Qed.

Lemma except_ZeroDivisionError_never {A : Type} (body : result A) (e : exn) :
  e <> ZeroDivisionError -> except_ZeroDivisionError body e <> Raise ZeroDivisionError.
Proof. destruct body as [a|[]]; cbn; congruence. Qed.

(** ** The volatile (constant-product) solver *)

Lemma after_fee_0 (fee : Fraction) : after_fee 0 fee = 0.
Proof. reflexivity. Qed.

Lemma solidly_calc_exact_in_volatile_token0 amount_in reserves0 reserves1 fee :
  solidly_calc_exact_in_volatile amount_in 0 reserves0 reserves1 fee
  = floordiv (after_fee amount_in fee * reserves1)
             (reserves0 + after_fee amount_in fee).
Proof. reflexivity. Qed.

Lemma solidly_calc_exact_in_volatile_token1 amount_in reserves0 reserves1 fee :
  solidly_calc_exact_in_volatile amount_in 1 reserves0 reserves1 fee
  = floordiv (after_fee amount_in fee * reserves0)
             (reserves1 + after_fee amount_in fee).
Proof. reflexivity. Qed.

(** C1: for a positive [amount_in] and [token_in] 0 or 1, the volatile solver
    returns the floor of [a * reserve_out / (reserve_in + a)], where [a] is
    [amount_in] less the floor of [amount_in * fee_numerator / fee_denominator],
    provided [reserve_in + a] is not zero.  The floors are those of the exact
    rational quotients. *)
Theorem solidly_calc_exact_in_volatile_formula
    (amount_in token_in reserves0 reserves1 : Z) (fee : Fraction) :
  let a := amount_in
           - Qfloor (inject_Z (amount_in * numerator fee)
                     / inject_Z (Z.pos (denominator fee))) in
  let reserve_in := if token_in =? 0 then reserves0 else reserves1 in
  let reserve_out := if token_in =? 0 then reserves1 else reserves0 in
  0 < amount_in ->
  token_in = 0 \/ token_in = 1 ->
  reserve_in + a <> 0 ->
  solidly_calc_exact_in_volatile amount_in token_in reserves0 reserves1 fee
  = Ok (Qfloor (inject_Z (a * reserve_out) / inject_Z (reserve_in + a))).
Proof.
  intros a reserve_in reserve_out _ Htok Hden.
  assert (Ha : a = after_fee amount_in fee).
  { unfold a, after_fee. now rewrite Qfloor_quotient by lia. }
  rewrite Qfloor_quotient by exact Hden.
  subst reserve_in reserve_out. rewrite Ha in *.
  destruct Htok as [-> | ->]; cbn [Z.eqb] in *.
  - rewrite solidly_calc_exact_in_volatile_token0. now apply floordiv_Ok.
  - rewrite solidly_calc_exact_in_volatile_token1. now apply floordiv_Ok.
Qed.

Lemma solidly_calc_exact_in_volatile_formula_witness :
  solidly_calc_exact_in_volatile (1000 * 10 ^ 18) 0
    (1000000 * 10 ^ 18) (1000000 * 10 ^ 18) (mkFraction 3 1000)
  = Ok 996006981039903216493.
Proof.
  pose proof (solidly_calc_exact_in_volatile_formula (1000 * 10 ^ 18) 0
                (1000000 * 10 ^ 18) (1000000 * 10 ^ 18) (mkFraction 3 1000)) as H.
  cbv zeta in H. rewrite H.
  - vm_compute. reflexivity.
  - vm_compute. reflexivity.
  - left. reflexivity.
  - vm_compute. discriminate.
Defined.

Lemma after_fee_nonneg amount_in fee :
  0 <= numerator fee < Z.pos (denominator fee) -> 0 <= amount_in ->
  0 <= after_fee amount_in fee.
Proof.
  intros Hf Ha. unfold after_fee.
  assert (amount_in * numerator fee / Z.pos (denominator fee) <= amount_in); [|lia].
  apply Z.div_le_upper_bound; nia.
Qed.

Lemma after_fee_mono amount_in amount_in' fee :
  0 <= numerator fee < Z.pos (denominator fee) ->
  amount_in <= amount_in' ->
  after_fee amount_in fee <= after_fee amount_in' fee.
Proof.
  intros Hf Hle. unfold after_fee.
  set (n := numerator fee) in *. set (d := Z.pos (denominator fee)) in *.
  assert (amount_in' * n / d <= amount_in * n / d + (amount_in' - amount_in)); [|lia].
  rewrite <- Z.div_add by lia.
  apply Z.div_le_mono; nia.
Qed.

(** [a * r_out // (r_in + a)] as a function of the post-fee input [a]. *)
Lemma constant_product_lt_reserve a r_in r_out :
  0 < r_in -> 0 < r_out -> 0 <= a -> a * r_out / (r_in + a) < r_out.
Proof. intros. apply Z.div_lt_upper_bound; nia. Qed.

Lemma constant_product_mono a a' r_in r_out :
  0 < r_in -> 0 < r_out -> 0 <= a <= a' ->
  a * r_out / (r_in + a) <= a' * r_out / (r_in + a').
Proof.
  intros Hin Hout Ha.
  pose proof (constant_product_lt_reserve a r_in r_out Hin Hout ltac:(lia)) as Hlt.
  apply Z.div_le_lower_bound; [lia|].
  pose proof (Z.mul_div_le (a * r_out) (r_in + a) ltac:(lia)).
  nia.
Qed.

(** C6: with positive reserves and a fee fraction in [0, 1), the output of the
    volatile solver does not decrease when [amount_in] grows, and it is
    strictly below the reserve of the output token for every positive
    [amount_in]. *)
Theorem solidly_calc_exact_in_volatile_monotone_bounded
    (amount_in amount_in' token_in reserves0 reserves1 : Z) (fee : Fraction) :
  let reserve_out := if token_in =? 0 then reserves1 else reserves0 in
  token_in = 0 \/ token_in = 1 ->
  0 < reserves0 -> 0 < reserves1 ->
  0 <= numerator fee < Z.pos (denominator fee) ->
  0 < amount_in <= amount_in' ->
  exists out out',
    solidly_calc_exact_in_volatile amount_in token_in reserves0 reserves1 fee = Ok out
    /\ solidly_calc_exact_in_volatile amount_in' token_in reserves0 reserves1 fee = Ok out'
    /\ out <= out' /\ out < reserve_out /\ out' < reserve_out.
Proof.
  intros reserve_out Htok H0 H1 Hfee Hamt.
  pose proof (after_fee_nonneg amount_in fee Hfee ltac:(lia)) as Ha.
  pose proof (after_fee_mono amount_in amount_in' fee Hfee ltac:(lia)) as Hm.
  subst reserve_out.
  destruct Htok as [-> | ->]; cbn [Z.eqb];
    rewrite ?solidly_calc_exact_in_volatile_token0, ?solidly_calc_exact_in_volatile_token1;
    rewrite !floordiv_Ok by lia;
    eexists _, _; (split; [reflexivity|]); (split; [reflexivity|]);
    (split; [apply constant_product_mono; lia|]);
    split; apply constant_product_lt_reserve; lia.
Qed.

Lemma solidly_calc_exact_in_volatile_monotone_bounded_witness :
  exists out out',
    solidly_calc_exact_in_volatile 1000 1 1000000 2000000 (mkFraction 3 1000) = Ok out
    /\ solidly_calc_exact_in_volatile 5000 1 1000000 2000000 (mkFraction 3 1000) = Ok out'
    /\ out <= out' /\ out < 1000000 /\ out' < 1000000.
Proof.
  apply (solidly_calc_exact_in_volatile_monotone_bounded
           1000 5000 1 1000000 2000000 (mkFraction 3 1000)).
  - right. reflexivity.
  - lia.
  - lia.
  - cbn. lia.
  - lia.
Defined.

(** ** Bounded loops *)

Section ForRange.
Variable body : Z -> result loop_step.
Variable after : Z -> result Z.

Lemma loop_passes_le (n : nat) (y : Z) : (loop_passes body n y <= n)%nat.
Proof.
  revert y; induction n as [|n IH]; intros y; cbn; [lia|].
  destruct (body y) as [[y'|r]|e]; [specialize (IH y')|..]; lia.
Qed.

(** The iterate of pass [S i] is what pass [i] continued with. *)
Lemma loop_iterate_last (i : nat) (y y' : Z) :
  loop_iterate body (S i) y = Some y' ->
  exists yi, loop_iterate body i y = Some yi /\ body yi = Ok (Continue y').
Proof.
  revert y; induction i as [|i IH]; intros y.
  - cbn. destruct (body y) as [[y1|r]|e] eqn:Hb; try discriminate.
    intros [= ->]. eauto.
  - intros H. change (loop_iterate body (S (S i)) y) with
      (match body y with
       | Ok (Continue y1) => loop_iterate body (S i) y1
       | _ => None
       end) in H.
    destruct (body y) as [[y1|r]|e] eqn:Hb; try discriminate.
    destruct (IH y1 H) as (yi & Hi & Hc).
    exists yi; split; [|exact Hc]. cbn. now rewrite Hb.
Qed.

(** A run that passes through the whole range ends in the code after the
    loop. *)
Lemma for_range_exhausted (n : nat) (y yn : Z) :
  loop_iterate body n y = Some yn -> for_range n body after y = after yn.
Proof.
  revert y; induction n as [|n IH]; intros y; cbn.
  - now intros [= ->].
  - destruct (body y) as [[y'|r]|e]; try discriminate. cbn. apply IH.
Qed.

Lemma for_range_Return (n i : nat) (y yi r : Z) :
  (i < n)%nat -> loop_iterate body i y = Some yi -> body yi = Ok (Return r) ->
  for_range n body after y = Ok r.
Proof.
  revert n y; induction i as [|i IH]; intros n y Hlt Hi Hb.
  - destruct n as [|n]; [lia|]. injection Hi as ->. cbn. now rewrite Hb.
  - destruct n as [|n]; [lia|]. cbn in Hi |- *.
    destruct (body y) as [[y'|r']|e]; try discriminate. cbn.
    apply IH; [lia | exact Hi | exact Hb].
Qed.

Lemma for_range_Raise (n i : nat) (y yi : Z) (e : exn) :
  (i < n)%nat -> loop_iterate body i y = Some yi -> body yi = Raise e ->
  for_range n body after y = Raise e.
Proof.
  revert n y; induction i as [|i IH]; intros n y Hlt Hi Hb.
  - destruct n as [|n]; [lia|]. injection Hi as ->. cbn. now rewrite Hb.
  - destruct n as [|n]; [lia|]. cbn in Hi |- *.
    destruct (body y) as [[y'|r']|e']; try discriminate. cbn.
    apply IH; [lia | exact Hi | exact Hb].
Qed.

(** Every run ends in exactly one of three ways. *)
Lemma for_range_cases (n : nat) (y : Z) :
  (exists i yi r, (i < n)%nat /\ loop_iterate body i y = Some yi
                  /\ body yi = Ok (Return r)
                  /\ for_range n body after y = Ok r)
  \/ (exists i yi e, (i < n)%nat /\ loop_iterate body i y = Some yi
                     /\ body yi = Raise e
                     /\ for_range n body after y = Raise e)
  \/ (exists yn, loop_iterate body n y = Some yn
                 /\ for_range n body after y = after yn).
Proof.
  revert y; induction n as [|n IH]; intros y.
  - right; right. exists y. split; reflexivity.
  - destruct (body y) as [[y'|r]|e] eqn:Hb.
    + destruct (IH y') as [(i & yi & r & Hlt & Hi & Hr & Hres)
                          |[(i & yi & e & Hlt & Hi & He & Hres)
                           |(yn & Hn & Hres)]].
      * left. exists (S i), yi, r. repeat split; [lia | | exact Hr |].
        -- cbn; now rewrite Hb.
        -- cbn; rewrite Hb; exact Hres.
      * right; left. exists (S i), yi, e. repeat split; [lia | | exact He |].
        -- cbn; now rewrite Hb.
        -- cbn; rewrite Hb; exact Hres.
      * right; right. exists yn. split.
        -- cbn; now rewrite Hb.
        -- cbn; rewrite Hb; exact Hres.
    + left. exists O, y, r. repeat split; [lia | exact Hb |].
      cbn; now rewrite Hb.
    + right; left. exists O, y, e. repeat split; [lia | exact Hb |].
      cbn; now rewrite Hb.
Qed.
End ForRange.

(** ** The Aerodrome iteration *)

(** C3: [_get_y_aerodrome] makes at most 255 passes through its loop.  When
    all 255 passes go on without meeting the convergence test, it raises
    [EVMRevertError] with the message "Failed to converge on a value for y"
    (the class of the overflow and division-by-zero reverts, not a class of
    its own).  A value is returned only from a pass, among the first 255, whose
    convergence test held. *)
Theorem get_y_aerodrome_iteration_cap (x0 xy y decimals0 decimals1 : Z) :
  let body := _get_y_aerodrome_body x0 xy decimals0 decimals1 in
  (loop_passes body 255 y <= 255)%nat
  /\ (forall y_last, loop_iterate body 255 y = Some y_last ->
        _get_y_aerodrome x0 xy y decimals0 decimals1
        = Raise (EVMRevertError "Failed to converge on a value for y"))
  /\ (forall r, _get_y_aerodrome x0 xy y decimals0 decimals1 = Ok r ->
        exists i yi, (i < 255)%nat /\ loop_iterate body i y = Some yi
                     /\ body yi = Ok (Return r)).
Proof.
  intros body. split; [apply loop_passes_le|]. split.
  - intros y_last Hlast. unfold _get_y_aerodrome.
    now rewrite (for_range_exhausted _ _ _ _ _ Hlast).
  - intros r Hr. unfold _get_y_aerodrome in Hr. fold body in Hr.
    destruct (for_range_cases body
                (fun _ => Raise (EVMRevertError "Failed to converge on a value for y"))
                255 y)
      as [(i & yi & r' & Hlt & Hi & Hb & Hres)
         |[(i & yi & e & Hlt & Hi & Hb & Hres)|(yn & Hn & Hres)]];
      rewrite Hres in Hr; try discriminate.
    injection Hr as ->. eauto.
Qed.

Lemma get_y_aerodrome_iteration_cap_witness :
  loop_iterate (_get_y_aerodrome_body (10 ^ 18) 1 (10 ^ 18) (10 ^ 18)) 255 (10 ^ 77)
  = Some 124947894092612362782339015922245
  /\ _get_y_aerodrome (10 ^ 18) 1 (10 ^ 77) (10 ^ 18) (10 ^ 18)
     = Raise (EVMRevertError "Failed to converge on a value for y").
Proof.
  assert (H : loop_iterate (_get_y_aerodrome_body (10 ^ 18) 1 (10 ^ 18) (10 ^ 18))
                255 (10 ^ 77) = Some 124947894092612362782339015922245)
    by (vm_compute; reflexivity).
  split; [exact H|].
  exact (proj1 (proj2 (get_y_aerodrome_iteration_cap
                         (10 ^ 18) 1 (10 ^ 77) (10 ^ 18) (10 ^ 18))) _ H).
Defined.

(** Counterexample to C3 as the specification words it: started from [y = 10 ^ 77] with
    [x0 = 10 ^ 18] and target 1, all 255 passes go on, and the error raised
    is an [EVMRevertError], not a [ConvergenceError]. *)
Lemma get_y_aerodrome_raises_EVMRevertError :
  let r := _get_y_aerodrome (10 ^ 18) 1 (10 ^ 77) (10 ^ 18) (10 ^ 18) in
  loop_passes (_get_y_aerodrome_body (10 ^ 18) 1 (10 ^ 18) (10 ^ 18)) 255 (10 ^ 77)
  = 255%nat
  /\ r = Raise (EVMRevertError "Failed to converge on a value for y")
  /\ forall msg, r <> Raise (ConvergenceError msg).
Proof.
  assert (H : _get_y_aerodrome (10 ^ 18) 1 (10 ^ 77) (10 ^ 18) (10 ^ 18)
              = Raise (EVMRevertError "Failed to converge on a value for y"))
    by (vm_compute; reflexivity).
  cbv zeta. split; [vm_compute; reflexivity|]. split; [exact H|].
  intros msg. rewrite H. discriminate.
Qed.

(** ** The Camelot iteration *)

(** On whole-token amounts the fixed-point curve of [_f_camelot] is the
    polynomial [x * y^3 + y * x^3]. *)
Lemma _f_camelot_whole_tokens (a b : Z) :
  _f_camelot (a * 10 ^ 18) (b * 10 ^ 18) = (a * b ^ 3 + b * a ^ 3) * 10 ^ 18.
Proof.
  unfold _f_camelot. set (E := 10 ^ 18).
  assert (HE : forall n, n * E / E = n) by (intros n; apply Z.div_mul; subst E; lia).
  replace (b * E * (b * E)) with (b * b * E * E) by ring. rewrite HE.
  replace (b * b * E * (b * E)) with (b * b * b * E * E) by ring. rewrite HE.
  replace (a * E * (b * b * b * E)) with (a * b * b * b * E * E) by ring. rewrite HE.
  replace (a * E * (a * E)) with (a * a * E * E) by ring. rewrite HE.
  replace (a * a * E * (a * E)) with (a * a * a * E * E) by ring. rewrite HE.
  replace (a * a * a * E * (b * E)) with (a * a * a * b * E * E) by ring. rewrite HE.
  ring.
Qed.

Lemma _get_y_camelot_update_Ok (x_0 xy y : Z) :
  _d x_0 y <> 0 -> exists y', _get_y_camelot_update x_0 xy y = Ok y'.
Proof.
  intros Hd. unfold _get_y_camelot_update.
  destruct (_f_camelot x_0 y <? xy); rewrite floordiv_Ok by exact Hd; cbn; eauto.
Qed.

Lemma _get_y_camelot_body_spec (x_0 xy y y' : Z) :
  _get_y_camelot_update x_0 xy y = Ok y' ->
  _get_y_camelot_body x_0 xy y
  = Ok (if Z.abs (y' - y) <=? 1 then Return y' else Continue y').
Proof.
  intros Hu. unfold _get_y_camelot_body. rewrite Hu. cbn.
  destruct (Z.ltb_spec y y'), (Z.leb_spec (Z.abs (y' - y)) 1);
    repeat match goal with
           | |- context [?a <=? ?b] => destruct (Z.leb_spec a b)
           end; try reflexivity; lia.
Qed.

Lemma _get_y_camelot_body_inv (x_0 xy y : Z) (s : loop_step) :
  _get_y_camelot_body x_0 xy y = Ok s ->
  exists y', _get_y_camelot_update x_0 xy y = Ok y'
             /\ s = if Z.abs (y' - y) <=? 1 then Return y' else Continue y'.
Proof.
  intros Hb.
  destruct (_get_y_camelot_update x_0 xy y) as [y'|e] eqn:Hu.
  - rewrite (_get_y_camelot_body_spec _ _ _ _ Hu) in Hb. injection Hb as <-. eauto.
  - unfold _get_y_camelot_body in Hb. rewrite Hu in Hb. discriminate.
Qed.

(** C5: when the derivative proxy [_d] is not zero at any iterate,
    [_get_y_camelot] makes at most 255 passes and returns an integer.  It
    returns the new iterate of the first pass whose new iterate is within 1 of
    the previous one (every earlier pass moved [y] by more than 1), and when
    no pass does, it returns the iterate left by the 255th pass, with no
    error. *)
Theorem get_y_camelot_returns (x_0 xy y : Z) :
  let body := _get_y_camelot_body x_0 xy in
  (forall i yi, (i < 255)%nat -> loop_iterate body i y = Some yi -> _d x_0 yi <> 0) ->
  (loop_passes body 255 y <= 255)%nat
  /\ (exists r, _get_y_camelot x_0 xy y = Ok r
       /\ ((exists i yi, (i < 255)%nat /\ loop_iterate body i y = Some yi
                         /\ _get_y_camelot_update x_0 xy yi = Ok r
                         /\ Z.abs (r - yi) <= 1)
           \/ loop_iterate body 255 y = Some r))
  /\ (forall i yi yi', loop_iterate body i y = Some yi ->
        loop_iterate body (S i) y = Some yi' ->
        _get_y_camelot_update x_0 xy yi = Ok yi' /\ 1 < Z.abs (yi' - yi)).
Proof.
  intros body Hd. split; [apply loop_passes_le|]. split.
  - unfold _get_y_camelot. fold body.
    destruct (for_range_cases body (fun y => Ok y) 255 y)
      as [(i & yi & r & Hlt & Hi & Hb & Hres)
         |[(i & yi & e & Hlt & Hi & Hb & Hres)|(yn & Hn & Hres)]].
    + exists r. split; [exact Hres|]. left. exists i, yi.
      destruct (_get_y_camelot_body_inv _ _ _ _ Hb) as (y' & Hu & Hs).
      destruct (Z.leb_spec (Z.abs (y' - yi)) 1); [|discriminate].
      injection Hs as ->. auto.
    + exfalso.
      destruct (_get_y_camelot_update_Ok x_0 xy yi (Hd i yi Hlt Hi)) as (y' & Hu).
      unfold body in Hb. rewrite (_get_y_camelot_body_spec _ _ _ _ Hu) in Hb.
      discriminate.
    + exists yn. split; [exact Hres|]. now right.
  - intros i yi yi' Hi HS.
    destruct (loop_iterate_last _ _ _ _ HS) as (yi0 & Hi0 & Hb).
    rewrite Hi in Hi0. injection Hi0 as <-.
    destruct (_get_y_camelot_body_inv _ _ _ _ Hb) as (y' & Hu & Hs).
    destruct (Z.leb_spec (Z.abs (y' - yi)) 1); [discriminate|].
    injection Hs as ->. auto.
Qed.

Lemma get_y_camelot_returns_witness :
  exists r, _get_y_camelot (10 ^ 18) (3 * 10 ^ 18) (10 ^ 18) = Ok r.
Proof.
  destruct (get_y_camelot_returns (10 ^ 18) (3 * 10 ^ 18) (10 ^ 18))
    as (_ & (r & Hr & _) & _).
  - intros i yi _ Hi.
    do 6 (destruct i as [|i];
          [vm_compute in Hi; injection Hi as <-; vm_compute; discriminate|]).
    vm_compute in Hi. discriminate.
  - exists r. exact Hr.
Defined.

(** ** The stable solver *)

Lemma scaled_18 (b : Z) : scaled b (10 ^ 18) = b.
Proof. unfold scaled. apply Z.div_mul. lia. Qed.

Lemma _k_aerodrome_inv (balance_0 balance_1 decimals_0 decimals_1 k : Z) :
  _k_aerodrome balance_0 balance_1 decimals_0 decimals_1 = Ok k ->
  decimals_0 <> 0 /\ decimals_1 <> 0
  /\ k = _f_aerodrome (scaled balance_0 decimals_0) (scaled balance_1 decimals_1).
Proof.
  unfold _k_aerodrome. intros H.
  inv_bind H. apply floordiv_inv in Ha as (Hd0 & ->).
  inv_bind H. apply floordiv_inv in Ha as (Hd1 & ->).
  inv_bind H. injection H as <-. auto.
Qed.

Lemma _get_y_aerodrome_body_d_zero (x0 xy decimals0 decimals1 y : Z) :
  _d x0 y = 0 ->
  _get_y_aerodrome_body x0 xy decimals0 decimals1 y = Raise ZeroDivisionError.
Proof.
  intros Hd. unfold _get_y_aerodrome_body. rewrite Hd.
  now destruct (_f_aerodrome x0 y <? xy).
Qed.



(** *** The invariant across a stable swap *)

Lemma _get_y_aerodrome_Ok_inv (x0 xy y decimals0 decimals1 r : Z) :
  _get_y_aerodrome x0 xy y decimals0 decimals1 = Ok r ->
  exists yi, _get_y_aerodrome_body x0 xy decimals0 decimals1 yi = Ok (Return r).
Proof.
  unfold _get_y_aerodrome. intros Hr.
  destruct (for_range_cases (_get_y_aerodrome_body x0 xy decimals0 decimals1)
              (fun _ => Raise (EVMRevertError "Failed to converge on a value for y"))
              255 y)
    as [(i & yi & r' & Hlt & Hi & Hb & Hres)
       |[(i & yi & e & Hlt & Hi & Hb & Hres)|(yn & Hn & Hres)]];
    rewrite Hres in Hr; try discriminate.
  injection Hr as ->. eauto.
Qed.









(** *** Two steps of [y] are worth more than a correction that rounds to 0 *)









(** The tolerance is not one unit of the invariant.  With an input token of
    6 decimals, a pool holding 0.1 of a 6-decimal token0 and 50 of an
    18-decimal token1 pays 333332444544392 for an input of 2, which leaves the
    invariant 244 units below its pre-swap value ([_k_aerodrome] at the
    post-swap balances gives the same value); with one more unit of the output
    reserve it is 256 units above. *)
Lemma solidly_calc_exact_in_stable_invariant_decreases :
  let fee := mkFraction 1 2000 in
  solidly_calc_exact_in_stable 2 0 100000 (50 * 10 ^ 18) (10 ^ 6) (10 ^ 18) fee
  = Ok 333332444544392
  /\ _k_aerodrome 100000 (50 * 10 ^ 18) (10 ^ 6) (10 ^ 18)
     = Ok 12500050000000000000000
  /\ post_swap_k 2 0 100000 (50 * 10 ^ 18) (10 ^ 6) (10 ^ 18) fee 333332444544392
     = 12500049999999999999756
  /\ _k_aerodrome (100000 + 2) (50 * 10 ^ 18 - 333332444544392) (10 ^ 6) (10 ^ 18)
     = Ok 12500049999999999999756
  /\ ~ (12500050000000000000000 <= 12500049999999999999756 + 1)
  /\ _f_aerodrome (scaled (after_fee 2 fee) (10 ^ 6) + scaled 100000 (10 ^ 6))
       (50 * 10 ^ 18 - 333332444544392 + 1)
     = 12500050000000000000000 + 256.
Proof.
  cbv zeta. repeat split; try (vm_compute; reflexivity). lia.
Qed.

(** C4: [solidly_calc_exact_in_stable] never raises [ZeroDivisionError]; a
    [ZeroDivisionError] raised inside its [try] block comes out as
    [EVMRevertError] with the message "Division by zero"; and that is what
    happens when the Newton iteration, reached with a valid [token_in] and an
    evaluated pre-swap invariant, meets an iterate at which [_d] is zero. *)
Theorem solidly_calc_exact_in_stable_division_by_zero
    (amount_in token_in reserves0 reserves1 decimals0 decimals1 : Z) (fee : Fraction) :
  solidly_calc_exact_in_stable amount_in token_in reserves0 reserves1
    decimals0 decimals1 fee <> Raise ZeroDivisionError
  /\ (solidly_calc_exact_in_stable_body amount_in token_in reserves0 reserves1
        decimals0 decimals1 fee = Raise ZeroDivisionError ->
      solidly_calc_exact_in_stable amount_in token_in reserves0 reserves1
        decimals0 decimals1 fee = Raise (EVMRevertError "Division by zero"))
  /\ (forall xy i yi,
        let decimals_in := if token_in =? 0 then decimals0 else decimals1 in
        let reserves_in := if token_in =? 0 then reserves0 else reserves1 in
        let decimals_out := if token_in =? 0 then decimals1 else decimals0 in
        let reserves_out := if token_in =? 0 then reserves1 else reserves0 in
        let x0 := scaled (after_fee amount_in fee) decimals_in
                  + scaled reserves_in decimals_in in
        token_in = 0 \/ token_in = 1 ->
        _k_aerodrome reserves0 reserves1 decimals0 decimals1 = Ok xy ->
        (i < 255)%nat ->
        loop_iterate (_get_y_aerodrome_body x0 xy decimals0 decimals1) i
          (scaled reserves_out decimals_out) = Some yi ->
        _d x0 yi = 0 ->
        solidly_calc_exact_in_stable amount_in token_in reserves0 reserves1
          decimals0 decimals1 fee = Raise (EVMRevertError "Division by zero")).
Proof.
  split; [|split].
  - unfold solidly_calc_exact_in_stable.
    apply except_ZeroDivisionError_never. discriminate.
  - intros H. unfold solidly_calc_exact_in_stable.
    now apply except_ZeroDivisionError_caught.
  - intros xy i yi decimals_in reserves_in decimals_out reserves_out x0
      Htok Hk Hlt Hi Hd.
    unfold solidly_calc_exact_in_stable.
    apply except_ZeroDivisionError_caught.
    unfold solidly_calc_exact_in_stable_body. fold (after_fee amount_in fee).
    rewrite Hk. cbn [mbind result_bind].
    destruct (_k_aerodrome_inv _ _ _ _ _ Hk) as (Hd0 & Hd1 & _).
    rewrite !floordiv_Ok by assumption. cbn [mbind result_bind].
    assert (Hloop : _get_y_aerodrome x0 xy (scaled reserves_out decimals_out)
                      decimals0 decimals1 = Raise ZeroDivisionError).
    { unfold _get_y_aerodrome.
      apply (for_range_Raise _ _ 255 i _ yi); [exact Hlt | exact Hi |].
      now apply _get_y_aerodrome_body_d_zero. }
    subst x0 decimals_in reserves_in decimals_out reserves_out.
    destruct Htok as [-> | ->]; cbn [Z.eqb Pos.eqb] in *;
      rewrite ?floordiv_Ok by assumption; cbn [mbind result_bind];
      unfold scaled in Hloop; rewrite Hloop; reflexivity.
Qed.

Lemma solidly_calc_exact_in_stable_division_by_zero_witness :
  solidly_calc_exact_in_stable 1 0 0 0 (10 ^ 18) (10 ^ 18) (mkFraction 1 2000)
  = Raise (EVMRevertError "Division by zero").
Proof.
  refine (proj2 (proj2 (solidly_calc_exact_in_stable_division_by_zero
                          1 0 0 0 (10 ^ 18) (10 ^ 18) (mkFraction 1 2000)))
            0 O 0 _ _ _ _ _).
  - left; reflexivity.
  - vm_compute; reflexivity.
  - lia.
  - vm_compute; reflexivity.
  - vm_compute; reflexivity.
Defined.


(** ** The pool entry point and the solver on amounts that are not positive *)

Lemma solidly_calc_exact_in_volatile_not_ZeroSwapError
    (amount_in token_in reserves0 reserves1 : Z) (fee : Fraction) (msg : string) :
  solidly_calc_exact_in_volatile amount_in token_in reserves0 reserves1 fee
  <> Raise (ZeroSwapError msg).
Proof.
  unfold solidly_calc_exact_in_volatile.
  destruct (token_in =? 0); [apply floordiv_not_ZeroSwapError|].
  destruct (token_in =? 1); [apply floordiv_not_ZeroSwapError|discriminate].
Qed.

(** C7, as the code has it: the pool entry point
    [calculate_tokens_out_from_tokens_in] rejects a [token_in] that is neither
    token of the pool with [DegenbotValueError], and a known token with a
    quantity that is not positive with [ZeroSwapError], whatever the store and
    the override state hold, so before any reserve is read.  The solver
    [solidly_calc_exact_in_volatile] has no such check: it never raises
    [ZeroSwapError], and for a zero amount it returns 0 when the reserve of
    the input token is not zero. *)
Theorem non_positive_amount_rejected_by_facade
    (calc_exact_in_stable : Z -> Z -> Z -> Z -> Z -> Z -> Fraction -> result Z)
    (general_calc_exact_in_volatile : Z -> Z -> Z -> Z -> Fraction -> result Z)
    (self : AerodromeV2Pool) (token_in : Erc20Token) (token_in_quantity : Z) :
  let facade :=
    calculate_tokens_out_from_tokens_in calc_exact_in_stable
      general_calc_exact_in_volatile in
  (token_eqb token_in (token0 self) = false ->
   token_eqb token_in (token1 self) = false ->
   forall h override_state,
     facade h self token_in token_in_quantity override_state
     = Some (Raise (DegenbotValueError "token_in not recognized.")))
  /\ (token_eqb token_in (token0 self) = true
      \/ token_eqb token_in (token1 self) = true ->
      token_in_quantity <= 0 ->
      forall h override_state,
        facade h self token_in token_in_quantity override_state
        = Some (Raise (ZeroSwapError "token_in_quantity must be positive")))
  /\ (forall amount_in token_index reserves0 reserves1 fee msg,
        solidly_calc_exact_in_volatile amount_in token_index reserves0 reserves1 fee
        <> Raise (ZeroSwapError msg))
  /\ (forall token_index reserves0 reserves1 fee,
        token_index = 0 \/ token_index = 1 ->
        (if token_index =? 0 then reserves0 else reserves1) <> 0 ->
        solidly_calc_exact_in_volatile 0 token_index reserves0 reserves1 fee = Ok 0).
Proof.
  intros facade. subst facade. repeat split.
  - intros H0 H1 h o. unfold calculate_tokens_out_from_tokens_in.
    now rewrite H0, H1.
  - intros Htok Hq h o. unfold calculate_tokens_out_from_tokens_in.
    assert (token_eqb token_in (token0 self) || token_eqb token_in (token1 self)
            = true) as ->.
    { destruct Htok as [-> | ->]; [reflexivity | apply orb_true_r]. }
    cbn [negb]. now destruct (Z.leb_spec token_in_quantity 0); [|lia].
  - intros. apply solidly_calc_exact_in_volatile_not_ZeroSwapError.
  - intros token_index reserves0 reserves1 fee Htok Hr.
    unfold solidly_calc_exact_in_volatile. fold (after_fee 0 fee).
    rewrite after_fee_0.
    destruct Htok as [-> | ->]; cbn [Z.eqb Pos.eqb] in *;
      cbn [mbind result_bind]; rewrite floordiv_Ok by lia; reflexivity.
Qed.

Lemma non_positive_amount_rejected_by_facade_witness :
  (forall h o,
     calculate_tokens_out_from_tokens_in solidly_calc_exact_in_stable
       solidly_calc_exact_in_volatile h example_pool DAI 5 o
     = Some (Raise (DegenbotValueError "token_in not recognized.")))
  /\ (forall h o,
        calculate_tokens_out_from_tokens_in solidly_calc_exact_in_stable
          solidly_calc_exact_in_volatile h example_pool USDC 0 o
        = Some (Raise (ZeroSwapError "token_in_quantity must be positive")))
  /\ solidly_calc_exact_in_volatile 0 0 1000 2000 (mkFraction 3 1000) = Ok 0.
Proof.
  split; [|split].
  - apply (proj1 (non_positive_amount_rejected_by_facade
                    solidly_calc_exact_in_stable solidly_calc_exact_in_volatile
                    example_pool DAI 5)); reflexivity.
  - apply (proj1 (proj2 (non_positive_amount_rejected_by_facade
                    solidly_calc_exact_in_stable solidly_calc_exact_in_volatile
                    example_pool USDC 0))); [right; reflexivity | lia].
  - apply (proj2 (proj2 (proj2 (non_positive_amount_rejected_by_facade
                    solidly_calc_exact_in_stable solidly_calc_exact_in_volatile
                    example_pool USDC 0)))); [left; reflexivity | cbn; lia].
Defined.

(** Counterexample to C7 as the specification words it, on the solver: with a zero
    amount it returns 0 and with a negative amount a negative output, where
    the claim has [ZeroSwapError]. *)
Lemma solidly_calc_exact_in_volatile_accepts_zero_amount :
  solidly_calc_exact_in_volatile 0 0 1000 2000 (mkFraction 3 1000) = Ok 0
  /\ solidly_calc_exact_in_volatile (-5) 0 1000 2000 (mkFraction 3 1000) = Ok (-9)
  /\ forall msg,
       solidly_calc_exact_in_volatile 0 0 1000 2000 (mkFraction 3 1000)
       <> Raise (ZeroSwapError msg).
Proof.
  split; [reflexivity|]. split; [reflexivity|]. intros msg. discriminate.
Qed.

(** ** The reserve setters *)

Lemma set_state_spec (h : gmap loc AerodromeV2PoolState) (self : AerodromeV2Pool)
    (new_state : AerodromeV2PoolState) :
  let '(h', self') := set_state h self new_state in
  h !! _state self' = None
  /\ state h' self' = Some new_state
  /\ (forall l s, h !! l = Some s -> h' !! l = Some s)
  /\ self' = set__state self (_state self').
Proof.
  unfold set_state, alloc, state. cbn.
  pose proof (is_fresh (dom h)) as Hf. apply not_elem_of_dom in Hf.
  split; [exact Hf|]. split; [apply lookup_insert_eq|]. split; [|reflexivity].
  intros l s Hl. rewrite lookup_insert_ne; [exact Hl|]. congruence.
Qed.

(** C8: the [reserves_token0] setter points the pool at a state object that
    did not exist before, whose [reserves_token0] is the new value and whose
    [reserves_token1] and [pool] are those of the previous state; the
    [reserves_token1] setter does the same with the roles swapped.  Every
    object of the store, the previous state among them, is left as it was,
    and the pool changes in nothing but its [_state] reference. *)
Theorem reserve_setters_replace_state
    (h : gmap loc AerodromeV2PoolState) (self : AerodromeV2Pool)
    (current_state : AerodromeV2PoolState) (new_reserves : Z) :
  state h self = Some current_state ->
  (exists h' self',
      set_reserves_token0 h self new_reserves = Some (h', self')
      /\ h !! _state self' = None
      /\ _state self' <> _state self
      /\ state h' self'
         = Some {| pool := pool current_state;
                   reserves_token0 := new_reserves;
                   reserves_token1 := reserves_token1 current_state |}
      /\ state h' self = Some current_state
      /\ (forall l s, h !! l = Some s -> h' !! l = Some s)
      /\ self' = set__state self (_state self'))
  /\ (exists h' self',
      set_reserves_token1 h self new_reserves = Some (h', self')
      /\ h !! _state self' = None
      /\ _state self' <> _state self
      /\ state h' self'
         = Some {| pool := pool current_state;
                   reserves_token0 := reserves_token0 current_state;
                   reserves_token1 := new_reserves |}
      /\ state h' self = Some current_state
      /\ (forall l s, h !! l = Some s -> h' !! l = Some s)
      /\ self' = set__state self (_state self')).
Proof.
  intros Hcur. split.
  - unfold set_reserves_token0. rewrite Hcur. cbn [mbind option_bind].
    match goal with |- context [set_state h self ?s] =>
      pose proof (set_state_spec h self s) as Hs;
      destruct (set_state h self s) as [h' self'] end.
    destruct Hs as (Hnew & Hst & Hold & Hself).
    exists h', self'. repeat split; auto.
    + unfold state in Hcur. congruence.
    + apply Hold. exact Hcur.
  - unfold set_reserves_token1. rewrite Hcur. cbn [mbind option_bind].
    match goal with |- context [set_state h self ?s] =>
      pose proof (set_state_spec h self s) as Hs;
      destruct (set_state h self s) as [h' self'] end.
    destruct Hs as (Hnew & Hst & Hold & Hself).
    exists h', self'. repeat split; auto.
    + unfold state in Hcur. congruence.
    + apply Hold. exact Hcur.
Qed.

Lemma reserve_setters_replace_state_witness :
  exists h' self',
    set_reserves_token0 {[ 1%positive := example_state ]} example_pool 1500
    = Some (h', self')
    /\ state h' self' = Some (mkAerodromeV2PoolState (pool example_state) 1500 2000)
    /\ state h' example_pool = Some example_state.
Proof.
  destruct (reserve_setters_replace_state
              {[ 1%positive := example_state ]} example_pool example_state 1500)
    as ((h' & self' & Hset & _ & _ & Hst & Hold & _) & _).
  - reflexivity.
  - exists h', self'. auto.
Defined.

(** * Further properties *)

(** ** [evm_divide] on positive denominators *)

(** X1: on a positive denominator [evm_divide] is truncation toward zero,
    and negating the numerator negates the result. *)
Theorem evm_divide_truncates_positive_denominator (numerator denominator : Z) :
  0 < denominator ->
  evm_divide numerator denominator = Ok (Z.quot numerator denominator)
  /\ evm_divide (- numerator) denominator
     = (q ← evm_divide numerator denominator; Ok (- q)).
Proof.
  intros Hd. rewrite !evm_divide_positive_denominator by exact Hd.
  split; [reflexivity|]. cbn. now rewrite Z.quot_opp_l by lia.
Qed.

Lemma evm_divide_truncates_positive_denominator_witness :
  evm_divide (-7) 2 = Ok (-3) /\ evm_divide 7 2 = Ok 3.
Proof.
  destruct (evm_divide_truncates_positive_denominator 7 2 ltac:(lia)) as (H1 & H2).
  split; [exact H2 | exact H1].
Defined.

(** ** [next_base_fee] *)

Lemma next_base_fee_inv base used limit m D E r :
  next_base_fee base used limit m D E = Ok r ->
  E <> 0 /\ exists raw, next_base_fee base used limit None D E = Ok raw
                        /\ r = match m with
                               | Some m => if m =? 0 then raw else Z.max m raw
                               | None => raw
                               end.
Proof.
  unfold next_base_fee. intros H.
  inv_bind H. apply floordiv_inv in Ha as (HE & ->).
  inv_bind H. injection H as <-. split; [exact HE|].
  exists a. rewrite floordiv_Ok by exact HE. cbn [mbind result_bind].
  rewrite Ha. split; reflexivity.
Qed.

(** X2: with a positive gas target that the gas used reaches, the call
    returns; at the target the fee is unchanged, above it the fee rises by at
    least 1, and while the gas used is at most twice the target it rises by no
    more than [max(parent_base_fee // denominator, 1)]. *)
Theorem next_base_fee_at_or_above_target
    (parent_base_fee parent_gas_used parent_gas_limit
     base_fee_max_change_denominator elasticity_multiplier : Z) :
  let last_gas_target := parent_gas_limit / elasticity_multiplier in
  0 <= parent_base_fee ->
  0 < base_fee_max_change_denominator ->
  elasticity_multiplier <> 0 ->
  0 < last_gas_target <= parent_gas_used ->
  exists fee,
    next_base_fee parent_base_fee parent_gas_used parent_gas_limit None
      base_fee_max_change_denominator elasticity_multiplier = Ok fee
    /\ (parent_gas_used = last_gas_target -> fee = parent_base_fee)
    /\ (last_gas_target < parent_gas_used -> parent_base_fee + 1 <= fee)
    /\ (parent_gas_used <= 2 * last_gas_target ->
        fee <= parent_base_fee
               + Z.max (parent_base_fee / base_fee_max_change_denominator) 1).
Proof.
  intros T Hb HD HE HT. unfold next_base_fee.
  rewrite floordiv_Ok by exact HE. cbn [mbind result_bind]. fold T.
  destruct (Z.eqb_spec parent_gas_used T) as [Heq|Hne].
  - exists parent_base_fee. cbn [mbind result_bind]. repeat split; try lia.
  - destruct (Z.ltb_spec T parent_gas_used) as [Hlt|Hge]; [|lia].
    rewrite floordiv_Ok by lia. cbn [mbind result_bind].
    rewrite floordiv_Ok by lia. cbn [mbind result_bind].
    eexists; split; [reflexivity|].
    split; [lia|]. split; [lia|].
    intros H2.
    assert (parent_base_fee * (parent_gas_used - T) / T <= parent_base_fee).
    { apply Z.div_le_upper_bound; nia. }
    assert (parent_base_fee * (parent_gas_used - T) / T / base_fee_max_change_denominator
            <= parent_base_fee / base_fee_max_change_denominator).
    { apply Z.div_le_mono; lia. }
    lia.
Qed.

Lemma next_base_fee_at_or_above_target_witness :
  exists fee,
    next_base_fee 1000 30000000 30000000 None 8 2 = Ok fee
    /\ 1000 + 1 <= fee /\ fee <= 1000 + Z.max (1000 / 8) 1.
Proof.
  destruct (next_base_fee_at_or_above_target 1000 30000000 30000000 8 2)
    as (fee & Hf & _ & Hup & Hbound).
  - lia.
  - lia.
  - lia.
  - vm_compute. split; [reflexivity | discriminate].
  - exists fee. split; [exact Hf|].
    split; [apply Hup; vm_compute; reflexivity
           | apply Hbound; vm_compute; discriminate].
Defined.

(** X3: with the gas used below the target, the fee does not rise, falls by
    no more than [parent_base_fee // denominator], and stays non-negative. *)
Theorem next_base_fee_below_target
    (parent_base_fee parent_gas_used parent_gas_limit
     base_fee_max_change_denominator elasticity_multiplier : Z) :
  let last_gas_target := parent_gas_limit / elasticity_multiplier in
  0 <= parent_base_fee ->
  0 < base_fee_max_change_denominator ->
  elasticity_multiplier <> 0 ->
  0 <= parent_gas_used < last_gas_target ->
  exists fee,
    next_base_fee parent_base_fee parent_gas_used parent_gas_limit None
      base_fee_max_change_denominator elasticity_multiplier = Ok fee
    /\ parent_base_fee - parent_base_fee / base_fee_max_change_denominator <= fee
    /\ fee <= parent_base_fee
    /\ 0 <= fee.
Proof.
  intros T Hb HD HE HT. unfold next_base_fee.
  rewrite floordiv_Ok by exact HE. cbn [mbind result_bind]. fold T.
  destruct (Z.eqb_spec parent_gas_used T) as [Heq|Hne]; [lia|].
  destruct (Z.ltb_spec T parent_gas_used) as [Hlt|Hge]; [lia|].
  rewrite floordiv_Ok by lia. cbn [mbind result_bind].
  rewrite floordiv_Ok by lia. cbn [mbind result_bind].
  eexists; split; [reflexivity|].
  assert (0 <= parent_base_fee * (T - parent_gas_used) / T <= parent_base_fee).
  { split; [apply Z.div_pos; nia | apply Z.div_le_upper_bound; nia]. }
  assert (0 <= parent_base_fee * (T - parent_gas_used) / T / base_fee_max_change_denominator
          <= parent_base_fee / base_fee_max_change_denominator).
  { split; [apply Z.div_pos; lia | apply Z.div_le_mono; lia]. }
  assert (parent_base_fee / base_fee_max_change_denominator <= parent_base_fee).
  { apply Z.div_le_upper_bound; nia. }
  lia.
Qed.

Lemma next_base_fee_below_target_witness :
  exists fee,
    next_base_fee 1000 0 30000000 None 8 2 = Ok fee
    /\ 1000 - 1000 / 8 <= fee /\ fee <= 1000 /\ 0 <= fee.
Proof.
  apply (next_base_fee_below_target 1000 0 30000000 8 2); try lia.
  vm_compute. split; [discriminate | reflexivity].
Defined.

(** X4: a [min_base_fee] that is not zero is a floor: the result is the
    larger of it and the fee computed without it.  A [min_base_fee] of 0 is
    read as absent. *)
Theorem next_base_fee_min_base_fee
    (parent_base_fee parent_gas_used parent_gas_limit min_base_fee
     base_fee_max_change_denominator elasticity_multiplier fee : Z) :
  next_base_fee parent_base_fee parent_gas_used parent_gas_limit (Some min_base_fee)
    base_fee_max_change_denominator elasticity_multiplier = Ok fee ->
  exists raw,
    next_base_fee parent_base_fee parent_gas_used parent_gas_limit None
      base_fee_max_change_denominator elasticity_multiplier = Ok raw
    /\ (min_base_fee <> 0 -> fee = Z.max min_base_fee raw /\ min_base_fee <= fee)
    /\ (min_base_fee = 0 -> fee = raw).
Proof.
  intros H. apply next_base_fee_inv in H as (_ & raw & Hraw & ->).
  exists raw. split; [exact Hraw|].
  destruct (Z.eqb_spec min_base_fee 0); split; intros; try lia; auto.
Qed.

Lemma next_base_fee_min_base_fee_witness :
  exists raw,
    next_base_fee 1000 0 30000000 None 8 2 = Ok raw
    /\ (950 <> 0 -> 950 = Z.max 950 raw /\ 950 <= 950)
    /\ (950 = 0 -> 950 = raw).
Proof.
  apply (next_base_fee_min_base_fee 1000 0 30000000 950 8 2 950).
  vm_compute. reflexivity.
Defined.

(** X5: [next_base_fee] raises [ZeroDivisionError] when the elasticity
    multiplier is zero, when the gas target is zero and the gas used is not,
    and when the change denominator is zero and the gas used is off target. *)
Theorem next_base_fee_ZeroDivisionError
    (parent_base_fee parent_gas_used parent_gas_limit : Z) (min_base_fee : option Z)
    (base_fee_max_change_denominator elasticity_multiplier : Z) :
  elasticity_multiplier = 0
  \/ (parent_gas_limit / elasticity_multiplier = 0 /\ parent_gas_used <> 0)
  \/ (base_fee_max_change_denominator = 0
      /\ parent_gas_used <> parent_gas_limit / elasticity_multiplier) ->
  next_base_fee parent_base_fee parent_gas_used parent_gas_limit min_base_fee
    base_fee_max_change_denominator elasticity_multiplier = Raise ZeroDivisionError.
Proof.
  unfold next_base_fee. intros [-> | H]; [reflexivity|].
  destruct (Z.eq_dec elasticity_multiplier 0) as [-> | HE]; [reflexivity|].
  rewrite (floordiv_Ok parent_gas_limit elasticity_multiplier) by exact HE.
  cbn [mbind result_bind].
  set (T := parent_gas_limit / elasticity_multiplier) in *.
  destruct H as [(HT & Hu) | (HD & Hu)].
  - rewrite HT. destruct (Z.eqb_spec parent_gas_used 0); [lia|].
    destruct (0 <? parent_gas_used); reflexivity.
  - subst base_fee_max_change_denominator.
    destruct (Z.eqb_spec parent_gas_used T); [lia|].
    destruct (Z.eq_dec T 0) as [-> | HT0].
    + destruct (0 <? parent_gas_used); reflexivity.
    + destruct (T <? parent_gas_used);
        rewrite floordiv_Ok by exact HT0; reflexivity.
Qed.

Lemma next_base_fee_ZeroDivisionError_witness :
  next_base_fee 1000 1 1 None 8 2 = Raise ZeroDivisionError.
Proof.
  apply next_base_fee_ZeroDivisionError. right. left. split; [reflexivity | lia].
Defined.

(** ** [extract_argument_types_from_function_prototype] *)

Lemma string_append_nil (s : string) : ("" ++ s)%string = s.
Proof. reflexivity. Qed.

Lemma string_append_String (a : ascii) (s1 s2 : string) :
  (String a s1 ++ s2)%string = String a (s1 ++ s2).
Proof. reflexivity. Qed.

Lemma str_find_range (c : ascii) (s : string) :
  str_find c s = -1 \/ 0 <= str_find c s < Z.of_nat (String.length s).
Proof.
  induction s as [|a s IH]; cbn [str_find String.length]; [now left|].
  destruct (Ascii.eqb a c); [right; lia|].
  destruct IH as [-> | IH]; [now left|].
  destruct (Z.ltb_spec (str_find c s) 0); [lia|]. right. lia.
Qed.

Lemma str_find_cons_none (c a : ascii) (s : string) :
  str_find c (String a s) = -1 -> Ascii.eqb a c = false /\ str_find c s = -1.
Proof.
  cbn [str_find]. destruct (Ascii.eqb a c); [discriminate|]. intros H.
  split; [reflexivity|].
  destruct (str_find_range c s) as [E | Hr]; [exact E|].
  destruct (Z.ltb_spec (str_find c s) 0); lia.
Qed.

Lemma str_find_app (c : ascii) (s1 s2 : string) :
  str_find c s1 = -1 ->
  str_find c (s1 ++ s2)
  = if str_find c s2 <? 0 then -1 else Z.of_nat (String.length s1) + str_find c s2.
Proof.
  induction s1 as [|a s1 IH]; rewrite ?string_append_nil, ?string_append_String; intros H1.
  - cbn [String.length].
    destruct (str_find_range c s2) as [-> | H]; [reflexivity|].
    destruct (Z.ltb_spec (str_find c s2) 0); lia.
  - apply str_find_cons_none in H1 as (Ha & E).
    cbn [str_find String.length]. rewrite Ha, (IH E).
    destruct (Z.ltb_spec (str_find c s2) 0) as [Hn|Hp]; [reflexivity|].
    match goal with |- context [?x <? 0] => destruct (Z.ltb_spec x 0) end; lia.
Qed.

Lemma str_find_app_none (c : ascii) (s1 s2 : string) :
  str_find c s1 = -1 -> str_find c s2 = -1 -> str_find c (s1 ++ s2) = -1.
Proof. intros H1 H2. rewrite (str_find_app c s1 s2 H1), H2. reflexivity. Qed.

Lemma substring_app_middle (s1 mid s3 : string) :
  substring (String.length s1) (String.length mid) (s1 ++ mid ++ s3) = mid.
Proof.
  induction s1 as [|a s1 IH]; rewrite ?string_append_nil, ?string_append_String;
    cbn [String.length substring].
  - induction mid as [|b mid IHm]; rewrite ?string_append_nil, ?string_append_String;
      cbn [String.length substring].
    + now destruct s3.
    + now rewrite IHm.
  - exact IH.
Qed.

Lemma string_length_app (s1 s2 : string) :
  String.length (s1 ++ s2) = (String.length s1 + String.length s2)%nat.
Proof.
  induction s1; rewrite ?string_append_nil, ?string_append_String; cbn [String.length];
    [reflexivity | now rewrite IHs1].
Qed.

Lemma str_split_no_sep (c : ascii) (s : string) :
  str_find c s = -1 -> str_split c s = [s].
Proof.
  induction s as [|a s IH]; [reflexivity|]. intros H.
  apply str_find_cons_none in H as (Ha & E).
  cbn [str_split]. now rewrite Ha, (IH E).
Qed.

Lemma str_split_app (c : ascii) (s1 s2 : string) :
  str_find c s1 = -1 ->
  str_split c (s1 ++ String c s2) = s1 :: str_split c s2.
Proof.
  induction s1 as [|a s1 IH]; rewrite ?string_append_nil, ?string_append_String; intros H.
  - cbn [str_split]. now rewrite Ascii.eqb_refl.
  - apply str_find_cons_none in H as (Ha & E).
    cbn [str_split]. now rewrite Ha, (IH E).
Qed.

Lemma str_split_join (c : ascii) (types : list string) :
  types <> [] ->
  Forall (fun t => str_find c t = -1) types ->
  str_split c (str_join (String c "") types) = types.
Proof.
  unfold str_join. induction types as [|t types IH]; [congruence|].
  intros _ Hall. apply Forall_cons_iff in Hall as (Ht & Hall).
  destruct types as [|t' types].
  - cbn [String.concat]. now apply str_split_no_sep.
  - change (String.concat (String c "") (t :: t' :: types))
      with (t ++ (String c "" ++ String.concat (String c "") (t' :: types)))%string.
    rewrite string_append_String, string_append_nil.
    rewrite (str_split_app c t _ Ht). f_equal.
    now apply IH.
Qed.

Lemma str_find_join (c sep : ascii) (types : list string) :
  Ascii.eqb sep c = false ->
  Forall (fun t => str_find c t = -1) types ->
  str_find c (str_join (String sep "") types) = -1.
Proof.
  unfold str_join. intros Hsep. induction types as [|t types IH]; [reflexivity|].
  intros Hall. apply Forall_cons_iff in Hall as (Ht & Hall).
  destruct types as [|t' types]; [exact Ht|].
  change (String.concat (String sep "") (t :: t' :: types))
    with (t ++ (String sep "" ++ String.concat (String sep "") (t' :: types)))%string.
  apply str_find_app_none; [exact Ht|].
  rewrite string_append_String, string_append_nil. cbn [str_find]. rewrite Hsep.
  change (String.concat (String sep "") (t' :: types)) with
    (str_join (String sep "") (t' :: types)) in *.
  unfold str_join in *. now rewrite (IH Hall).
Qed.

Lemma string_append_assoc (s1 s2 s3 : string) :
  ((s1 ++ s2) ++ s3)%string = (s1 ++ (s2 ++ s3))%string.
Proof.
  induction s1; rewrite ?string_append_nil, ?string_append_String; [reflexivity | now rewrite IHs1].
Qed.

Lemma str_find_app_sep (c : ascii) (s rest : string) :
  str_find c s = -1 -> str_find c (s ++ String c rest) = Z.of_nat (String.length s).
Proof.
  intros H. rewrite (str_find_app c s _ H). cbn [str_find].
  rewrite Ascii.eqb_refl. cbn. lia.
Qed.

Lemma str_find_cons_other (c a : ascii) (s : string) :
  Ascii.eqb a c = false -> 0 <= str_find c s ->
  str_find c (String a s) = str_find c s + 1.
Proof.
  intros Ha Hs. cbn [str_find]. rewrite Ha.
  destruct (Z.ltb_spec (str_find c s) 0); lia.
Qed.

Lemma str_slice_middle (s1 mid s3 : string) :
  str_slice (s1 ++ (mid ++ s3))
    (Z.of_nat (String.length s1))
    (Z.of_nat (String.length s1) + Z.of_nat (String.length mid))
  = mid.
Proof.
  unfold str_slice, slice_bound. rewrite !string_length_app.
  destruct (Z.ltb_spec (Z.of_nat (String.length s1)) 0); [lia|].
  destruct (Z.ltb_spec (Z.of_nat (String.length s1) + Z.of_nat (String.length mid)) 0);
    [lia|].
  rewrite !Z.min_l by lia.
  replace (Z.to_nat (Z.of_nat (String.length s1))) with (String.length s1) by lia.
  replace (Z.to_nat _) with (String.length mid) by lia.
  apply substring_app_middle.
Qed.

Lemma str_join_nonempty (sep : string) (types : list string) :
  types <> [] -> Forall (fun t => t <> ""%string) types ->
  str_join sep types <> ""%string.
Proof.
  unfold str_join. destruct types as [|t types]; [congruence|].
  intros _ Hall. apply Forall_cons_iff in Hall as (Ht & _).
  destruct t as [|a t]; [congruence|].
  destruct types; cbn [String.concat]; rewrite ?string_append_String; discriminate.
Qed.

(** X6: a prototype made of a name without parentheses, an opening
    parenthesis, types joined by commas and a closing parenthesis gives back
    the list of types, when no type is empty or contains a comma or a
    parenthesis.  An empty list of types gives the empty list. *)
Theorem extract_argument_types_round_trip (name : string) (types : list string) :
  str_find "(" name = -1 -> str_find ")" name = -1 ->
  Forall (fun t => t <> ""%string /\ str_find "," t = -1
                   /\ str_find "(" t = -1 /\ str_find ")" t = -1) types ->
  extract_argument_types_from_function_prototype
    (name ++ "(" ++ str_join "," types ++ ")")%string
  = types.
Proof.
  intros Hn1 Hn2 Hall.
  assert (Hne : Forall (fun t => t <> ""%string) types)
    by (eapply Forall_impl; [exact Hall | cbn; tauto]).
  assert (Hcomma : Forall (fun t => str_find "," t = -1) types)
    by (eapply Forall_impl; [exact Hall | cbn; tauto]).
  assert (Hopen : Forall (fun t => str_find "(" t = -1) types)
    by (eapply Forall_impl; [exact Hall | cbn; tauto]).
  assert (Hclose : Forall (fun t => str_find ")" t = -1) types)
    by (eapply Forall_impl; [exact Hall | cbn; tauto]).
  set (joined := str_join "," types).
  assert (Hj1 : str_find "(" joined = -1) by (now apply str_find_join).
  assert (Hj2 : str_find ")" joined = -1) by (now apply str_find_join).
  unfold extract_argument_types_from_function_prototype.
  assert (Hopen_at : str_find "(" (name ++ "(" ++ joined ++ ")")
                     = Z.of_nat (String.length name)).
  { rewrite string_append_String, string_append_nil. now apply str_find_app_sep. }
  assert (Hclose_at : str_find ")" (name ++ "(" ++ joined ++ ")")
                      = Z.of_nat (String.length name) + 1
                        + Z.of_nat (String.length joined)).
  { rewrite string_append_String, string_append_nil.
    assert (Hin : str_find ")" (String "(" (joined ++ ")"))
                  = Z.of_nat (String.length joined) + 1).
    { rewrite str_find_cons_other; [|reflexivity|];
        rewrite (str_find_app_sep ")" joined "" Hj2); lia. }
    rewrite (str_find_app _ _ _ Hn2), Hin.
    destruct (Z.ltb_spec (Z.of_nat (String.length joined) + 1) 0); lia. }
  rewrite Hopen_at, Hclose_at.
  replace (name ++ "(" ++ joined ++ ")")%string
    with ((name ++ "(") ++ (joined ++ ")"))%string by apply string_append_assoc.
  replace (Z.of_nat (String.length name) + 1)
    with (Z.of_nat (String.length (name ++ "("))).
  2:{ rewrite string_length_app. cbn [String.length]. lia. }
  rewrite str_slice_middle.
  destruct (String.eqb_spec joined "") as [E|E].
  - destruct types as [|t types]; [reflexivity|].
    exfalso. exact (str_join_nonempty "," (t :: types) ltac:(congruence) Hne E).
  - apply (str_split_join "," types); [|exact Hcomma].
    intros ->. apply E. reflexivity.
Qed.

Lemma extract_argument_types_round_trip_witness :
  extract_argument_types_from_function_prototype "getFee(address,bool)"
  = ["address"; "bool"]%string.
Proof.
  apply (extract_argument_types_round_trip "getFee" ["address"; "bool"]%string).
  - reflexivity.
  - reflexivity.
  - repeat constructor; discriminate.
Defined.

(** X7: on a text with no parenthesis at all both searches give -1, so the
    slice is the text without its last character, and that is what gets split
    at the commas. *)
Theorem extract_argument_types_without_parentheses (function_prototype : string) :
  str_find "(" function_prototype = -1 ->
  str_find ")" function_prototype = -1 ->
  let all_but_last :=
    substring 0 (String.length function_prototype - 1) function_prototype in
  extract_argument_types_from_function_prototype function_prototype
  = if String.eqb all_but_last "" then [] else str_split "," all_but_last.
Proof.
  intros H1 H2. unfold extract_argument_types_from_function_prototype.
  rewrite H1, H2. unfold str_slice, slice_bound.
  set (n := String.length function_prototype).
  change (-1 + 1) with 0. change (0 <? 0) with false. change (-1 <? 0) with true.
  cbv iota. rewrite Z.min_l by lia.
  replace (Z.to_nat (Z.max (-1 + Z.of_nat n) 0 - 0)) with (n - 1)%nat by lia.
  reflexivity.
Qed.

Lemma extract_argument_types_without_parentheses_witness :
  extract_argument_types_from_function_prototype "factory" = ["factor"]%string.
Proof.
  rewrite (extract_argument_types_without_parentheses "factory");
    reflexivity.
Defined.

(** ** The curve functions *)

Lemma _f_aerodrome_sym (x y : Z) : _f_aerodrome x y = _f_aerodrome y x.
Proof.
  unfold _f_aerodrome. cbv zeta.
  now rewrite (Z.mul_comm x y), (Z.add_comm (x * x / 10 ^ 18)).
Qed.

Lemma _f_aerodrome_whole_tokens (a b : Z) :
  _f_aerodrome (a * 10 ^ 18) (b * 10 ^ 18) = a * b * (a ^ 2 + b ^ 2) * 10 ^ 18.
Proof.
  unfold _f_aerodrome. cbv zeta. set (E := 10 ^ 18).
  assert (HE : forall n, n * E / E = n) by (intros n; apply Z.div_mul; subst E; lia).
  replace (a * E * (b * E)) with (a * b * E * E) by ring. rewrite HE.
  replace (a * E * (a * E)) with (a * a * E * E) by ring. rewrite HE.
  replace (b * E * (b * E)) with (b * b * E * E) by ring. rewrite HE.
  replace (a * b * E * (a * a * E + b * b * E))
    with (a * b * (a * a + b * b) * E * E) by ring.
  rewrite HE. ring.
Qed.

Lemma _f_aerodrome_mono (x y y' : Z) :
  0 <= x -> 0 <= y <= y' -> _f_aerodrome x y <= _f_aerodrome x y'.
Proof.
  intros Hx Hy. unfold _f_aerodrome. cbv zeta.
  assert (HE : 0 < 10 ^ 18) by lia.
  apply Z.div_le_mono; [lia|].
  assert (0 <= x * y / 10 ^ 18) by (apply Z.div_pos; nia).
  assert (x * y / 10 ^ 18 <= x * y' / 10 ^ 18) by (apply Z.div_le_mono; nia).
  assert (0 <= x * x / 10 ^ 18) by (apply Z.div_pos; nia).
  assert (0 <= y * y / 10 ^ 18) by (apply Z.div_pos; nia).
  assert (y * y / 10 ^ 18 <= y' * y' / 10 ^ 18) by (apply Z.div_le_mono; nia).
  nia.
Qed.

Lemma raise_if_invalid_uint256_Ok (n : Z) :
  raise_if_invalid_uint256 n = Ok tt <-> 0 <= n <= MAX_UINT256.
Proof.
  unfold raise_if_invalid_uint256, MIN_UINT256.
  destruct (Z.leb_spec 0 n), (Z.leb_spec n MAX_UINT256); cbn; split;
    try discriminate; try lia; reflexivity.
Qed.

Lemma _d_whole_tokens (a b : Z) :
  _d (a * 10 ^ 18) (b * 10 ^ 18) = (3 * a * b ^ 2 + a ^ 3) * 10 ^ 18.
Proof.
  unfold _d. set (E := 10 ^ 18).
  assert (HE : forall n, n * E / E = n) by (intros n; apply Z.div_mul; subst E; lia).
  replace (b * E * (b * E)) with (b * b * E * E) by ring. rewrite HE.
  replace (3 * (a * E) * (b * b * E)) with (3 * a * b * b * E * E) by ring. rewrite HE.
  replace (a * E * (a * E)) with (a * a * E * E) by ring. rewrite HE.
  replace (a * a * E * (a * E)) with (a * a * a * E * E) by ring. rewrite HE.
  ring.
Qed.

(** X8: on whole-token amounts the fixed-point functions are exact:
    [_f_aerodrome] is [a * b * (a^2 + b^2)], [_f_camelot] agrees with it, and
    [_d] is [3 * a * b^2 + a^3], each scaled by [10^18]. *)
Theorem curve_functions_on_whole_tokens (a b : Z) :
  _f_aerodrome (a * 10 ^ 18) (b * 10 ^ 18) = a * b * (a ^ 2 + b ^ 2) * 10 ^ 18
  /\ _f_camelot (a * 10 ^ 18) (b * 10 ^ 18) = _f_aerodrome (a * 10 ^ 18) (b * 10 ^ 18)
  /\ _d (a * 10 ^ 18) (b * 10 ^ 18) = (3 * a * b ^ 2 + a ^ 3) * 10 ^ 18.
Proof.
  split; [apply _f_aerodrome_whole_tokens|]. split; [|apply _d_whole_tokens].
  rewrite _f_camelot_whole_tokens, _f_aerodrome_whole_tokens. ring.
Qed.

(** X9: on non-negative arguments [_f_aerodrome] is symmetric, non-negative
    and non-decreasing in each argument. *)
Theorem f_aerodrome_symmetric_monotone (x y y' : Z) :
  0 <= x -> 0 <= y <= y' ->
  _f_aerodrome x y = _f_aerodrome y x
  /\ _f_aerodrome x y <= _f_aerodrome x y'
  /\ _f_aerodrome y x <= _f_aerodrome y' x
  /\ 0 <= _f_aerodrome x y.
Proof.
  intros Hx Hy. split; [apply _f_aerodrome_sym|].
  split; [now apply _f_aerodrome_mono|]. split.
  - rewrite (_f_aerodrome_sym y x), (_f_aerodrome_sym y' x).
    now apply _f_aerodrome_mono.
  - unfold _f_aerodrome. cbv zeta.
    apply Z.div_pos; [|lia].
    apply Z.mul_nonneg_nonneg; [apply Z.div_pos; nia|].
    apply Z.add_nonneg_nonneg; apply Z.div_pos; nia.
Qed.

Lemma f_aerodrome_symmetric_monotone_witness :
  _f_aerodrome (3 * 10 ^ 17) (5 * 10 ^ 18) <= _f_aerodrome (3 * 10 ^ 17) (5 * 10 ^ 18 + 1).
Proof.
  apply (f_aerodrome_symmetric_monotone (3 * 10 ^ 17) (5 * 10 ^ 18) (5 * 10 ^ 18 + 1));
    lia.
Defined.

(** X10: [_k_aerodrome] gives the same result, value or error, when the two
    balances are exchanged together with their decimals, and a value it
    returns is non-negative and at most [MAX_UINT256 // 10^18]. *)
Theorem k_aerodrome_symmetric_and_bounded (balance_0 balance_1 decimals_0 decimals_1 : Z) :
  _k_aerodrome balance_0 balance_1 decimals_0 decimals_1
  = _k_aerodrome balance_1 balance_0 decimals_1 decimals_0
  /\ forall k, _k_aerodrome balance_0 balance_1 decimals_0 decimals_1 = Ok k ->
               0 <= k /\ k * 10 ^ 18 <= MAX_UINT256.
Proof.
  split.
  - unfold _k_aerodrome, floordiv.
    destruct (Z.eqb_spec decimals_0 0), (Z.eqb_spec decimals_1 0); try reflexivity.
    cbn [mbind result_bind].
    set (x := balance_0 * 10 ^ 18 / decimals_0).
    set (y := balance_1 * 10 ^ 18 / decimals_1).
    now rewrite (Z.mul_comm y x), (Z.add_comm (y * y / 10 ^ 18)).
  - intros k Hk. unfold _k_aerodrome in Hk.
    inv_bind Hk. inv_bind Hk. inv_bind Hk. injection Hk as <-.
    destruct a1. apply raise_if_invalid_uint256_Ok in Ha1.
    split.
    + apply Z.div_pos; lia.
    + pose proof (Z.mul_div_le
                    (a * a0 / 10 ^ 18 * (a * a / 10 ^ 18 + a0 * a0 / 10 ^ 18))
                    (10 ^ 18) ltac:(lia)).
      lia.
Qed.

Lemma k_aerodrome_symmetric_and_bounded_witness :
  0 <= 32 * 10 ^ 42 /\ 32 * 10 ^ 42 * 10 ^ 18 <= MAX_UINT256.
Proof.
  apply (proj2 (k_aerodrome_symmetric_and_bounded
                  (2000000 * 10 ^ 18) (2000000 * 10 ^ 18) (10 ^ 18) (10 ^ 18))).
  vm_compute. reflexivity.
Defined.

(** ** The Aerodrome iteration and the stable solver, further *)

Lemma _get_y_aerodrome_body_Return_minimal (x0 xy decimals0 decimals1 y r : Z) :
  _get_y_aerodrome_body x0 xy decimals0 decimals1 y = Ok (Return r) ->
  _f_aerodrome x0 r = xy \/ _f_aerodrome x0 (r - 1) < xy.
Proof.
  unfold _get_y_aerodrome_body.
  destruct (Z.ltb_spec (_f_aerodrome x0 y) xy) as [Hk|Hk]; intros H.
  - inv_bind H. destruct (a =? 0); [|discriminate].
    destruct (Z.eqb_spec (_f_aerodrome x0 y) xy) as [Heq|_]; [lia|].
    inv_bind H.
    destruct (xy <? a0); [|discriminate].
    injection H as <-. right. now replace (y + 1 - 1) with y by lia.
  - inv_bind H. destruct (a =? 0); [|discriminate].
    destruct (Z.eqb_spec (_f_aerodrome x0 y) xy) as [Heq|Hne]; cbn [orb] in H.
    + injection H as <-. now left.
    + destruct (Z.ltb_spec (_f_aerodrome x0 (y - 1)) xy); [|discriminate].
      injection H as <-. now right.
Qed.

Lemma _get_y_aerodrome_body_Return_accepted (x0 xy decimals0 decimals1 y r : Z) :
  _get_y_aerodrome_body x0 xy decimals0 decimals1 y = Ok (Return r) ->
  xy <= _f_aerodrome x0 r
  \/ exists k1, _k_aerodrome x0 r decimals0 decimals1 = Ok k1 /\ xy < k1.
Proof.
  unfold _get_y_aerodrome_body.
  destruct (Z.ltb_spec (_f_aerodrome x0 y) xy) as [Hk|Hk]; intros H.
  - inv_bind H. destruct (a =? 0); [|discriminate].
    destruct (Z.eqb_spec (_f_aerodrome x0 y) xy) as [Heq|_]; [lia|].
    inv_bind H.
    destruct (Z.ltb_spec xy a0); [|discriminate].
    injection H as <-. right. eauto.
  - inv_bind H. destruct (a =? 0); [|discriminate].
    destruct ((_f_aerodrome x0 y =? xy) || (_f_aerodrome x0 (y - 1) <? xy))%bool;
      [|discriminate].
    injection H as <-. left. lia.
Qed.

(** X11: a value [_get_y_aerodrome] returns is minimal for the invariant, it
    meets the target exactly or its predecessor is below the target; and it
    has passed one of the two acceptance tests of the loop, [_f_aerodrome] at
    least the target or [_k_aerodrome] above it. *)
Theorem get_y_aerodrome_minimal (x0 xy y decimals0 decimals1 r : Z) :
  _get_y_aerodrome x0 xy y decimals0 decimals1 = Ok r ->
  (_f_aerodrome x0 r = xy \/ _f_aerodrome x0 (r - 1) < xy)
  /\ (xy <= _f_aerodrome x0 r
      \/ exists k1, _k_aerodrome x0 r decimals0 decimals1 = Ok k1 /\ xy < k1).
Proof.
  intros Hr. apply _get_y_aerodrome_Ok_inv in Hr as (yi & Hb). split.
  - now apply _get_y_aerodrome_body_Return_minimal in Hb.
  - now apply _get_y_aerodrome_body_Return_accepted in Hb.
Qed.

Lemma get_y_aerodrome_minimal_witness :
  _f_aerodrome (2010000 * 10 ^ 18) 1990000000624999921728530 = 32 * 10 ^ 42
  \/ _f_aerodrome (2010000 * 10 ^ 18) (1990000000624999921728530 - 1) < 32 * 10 ^ 42.
Proof.
  apply (get_y_aerodrome_minimal (2010000 * 10 ^ 18) (32 * 10 ^ 42)
           (2000000 * 10 ^ 18) (10 ^ 18) (10 ^ 18)).
  vm_compute. reflexivity.
Defined.

Lemma floordiv_Raise (a b : Z) (e : exn) :
  floordiv a b = Raise e -> e = ZeroDivisionError /\ b = 0.
Proof.
  unfold floordiv. destruct (Z.eqb_spec b 0); [|discriminate].
  intros [= <-]. auto.
Qed.

Lemma _k_aerodrome_Raise (b0 b1 d0 d1 : Z) (e : exn) :
  _k_aerodrome b0 b1 d0 d1 = Raise e ->
  e = ZeroDivisionError \/ exists msg, e = EVMRevertError msg.
Proof.
  unfold _k_aerodrome.
  destruct (floordiv (b0 * 10 ^ 18) d0) as [x|e0] eqn:H0; cbn.
  2:{ intros [= <-]. left. now apply floordiv_Raise in H0. }
  destruct (floordiv (b1 * 10 ^ 18) d1) as [y|e1] eqn:H1; cbn.
  2:{ intros [= <-]. left. now apply floordiv_Raise in H1. }
  unfold raise_if_invalid_uint256.
  destruct (negb _); cbn; [|discriminate].
  intros [= <-]. right. eauto.
Qed.

Lemma _get_y_aerodrome_body_Raise (x0 xy d0 d1 y : Z) (e : exn) :
  _get_y_aerodrome_body x0 xy d0 d1 y = Raise e ->
  e = ZeroDivisionError \/ exists msg, e = EVMRevertError msg.
Proof.
  unfold _get_y_aerodrome_body.
  destruct (_f_aerodrome x0 y <? xy).
  - destruct (floordiv ((xy - _f_aerodrome x0 y) * 10 ^ 18) (_d x0 y)) as [dy|e0] eqn:H0;
      cbn.
    2:{ intros [= <-]. left. now apply floordiv_Raise in H0. }
    destruct (dy =? 0); [|discriminate].
    destruct (_f_aerodrome x0 y =? xy); [discriminate|].
    destruct (_k_aerodrome x0 (y + 1) d0 d1) as [k1|e1] eqn:H1; cbn.
    + destruct (xy <? k1); discriminate.
    + intros [= <-]. now apply _k_aerodrome_Raise in H1.
  - destruct (floordiv ((_f_aerodrome x0 y - xy) * 10 ^ 18) (_d x0 y)) as [dy|e0] eqn:H0;
      cbn.
    2:{ intros [= <-]. left. now apply floordiv_Raise in H0. }
    destruct (dy =? 0); [|discriminate].
    destruct ((_f_aerodrome x0 y =? xy) || (_f_aerodrome x0 (y - 1) <? xy))%bool;
      discriminate.
Qed.

Lemma _get_y_aerodrome_Raise (x0 xy y d0 d1 : Z) (e : exn) :
  _get_y_aerodrome x0 xy y d0 d1 = Raise e ->
  e = ZeroDivisionError \/ exists msg, e = EVMRevertError msg.
Proof.
  unfold _get_y_aerodrome. intros Hr.
  destruct (for_range_cases (_get_y_aerodrome_body x0 xy d0 d1)
              (fun _ => Raise (EVMRevertError "Failed to converge on a value for y"))
              255 y)
    as [(i & yi & r' & Hlt & Hi & Hb & Hres)
       |[(i & yi & e' & Hlt & Hi & Hb & Hres)|(yn & Hn & Hres)]];
    rewrite Hres in Hr; try discriminate.
  - injection Hr as ->. now apply _get_y_aerodrome_body_Raise in Hb.
  - injection Hr as <-. right. eauto.
Qed.

Lemma solidly_calc_exact_in_stable_body_Raise
    (amount_in token_in reserves0 reserves1 decimals0 decimals1 : Z)
    (fee : Fraction) (e : exn) :
  solidly_calc_exact_in_stable_body amount_in token_in reserves0 reserves1
    decimals0 decimals1 fee = Raise e ->
  e = ZeroDivisionError \/ (exists msg, e = EVMRevertError msg)
  \/ e = ValueError "Invalid token_in identifier".
Proof.
  unfold solidly_calc_exact_in_stable_body.
  destruct (_k_aerodrome reserves0 reserves1 decimals0 decimals1) as [xy|e0] eqn:Hk;
    cbn [mbind result_bind].
  2:{ intros [= <-]. apply _k_aerodrome_Raise in Hk. tauto. }
  destruct (_k_aerodrome_inv _ _ _ _ _ Hk) as (Hd0 & Hd1 & _).
  rewrite !floordiv_Ok by assumption. cbn [mbind result_bind].
  destruct (token_in =? 0); [|destruct (token_in =? 1)]; cbn [mbind result_bind].
  3:{ intros [= <-]. auto. }
  all: match goal with
       | |- context [_get_y_aerodrome ?a ?b ?c ?d ?f] =>
           destruct (_get_y_aerodrome a b c d f) as [yn|e1] eqn:Hy; cbn [mbind result_bind];
           [discriminate | intros [= <-]; apply _get_y_aerodrome_Raise in Hy; tauto]
       end.
Qed.

(** X12: the only exceptions [solidly_calc_exact_in_stable] raises are
    [EVMRevertError] and, for a [token_in] other than 0 and 1, the
    [ValueError] of the identifier check. *)
Theorem solidly_calc_exact_in_stable_raises
    (amount_in token_in reserves0 reserves1 decimals0 decimals1 : Z)
    (fee : Fraction) (e : exn) :
  solidly_calc_exact_in_stable amount_in token_in reserves0 reserves1
    decimals0 decimals1 fee = Raise e ->
  (exists msg, e = EVMRevertError msg)
  \/ (e = ValueError "Invalid token_in identifier"
      /\ token_in <> 0 /\ token_in <> 1).
Proof.
  unfold solidly_calc_exact_in_stable. intros H.
  destruct (solidly_calc_exact_in_stable_body amount_in token_in reserves0 reserves1
              decimals0 decimals1 fee) as [r|e0] eqn:Hb; cbn in H.
  - discriminate.
  - pose proof (solidly_calc_exact_in_stable_body_Raise _ _ _ _ _ _ _ _ Hb)
      as [-> | [(msg & ->) | ->]].
    + cbn in H. injection H as <-. eauto.
    + cbn in H. injection H as <-. eauto.
    + cbn in H. injection H as <-. right. split; [reflexivity|].
      unfold solidly_calc_exact_in_stable_body in Hb.
      destruct (_k_aerodrome reserves0 reserves1 decimals0 decimals1) as [xy|e0] eqn:Hk;
        cbn [mbind result_bind] in Hb.
      2:{ injection Hb as ->. apply _k_aerodrome_Raise in Hk as [Hk|(m & Hk)]; discriminate. }
      destruct (_k_aerodrome_inv _ _ _ _ _ Hk) as (Hd0 & Hd1 & _).
      rewrite !floordiv_Ok in Hb by assumption. cbn [mbind result_bind] in Hb.
      destruct (Z.eqb_spec token_in 0), (Z.eqb_spec token_in 1); try (split; assumption);
        cbn [mbind result_bind] in Hb;
        match type of Hb with
        | context [_get_y_aerodrome ?a ?b ?c ?d ?f] =>
            destruct (_get_y_aerodrome a b c d f) as [yn|e1] eqn:Hy; cbn [mbind result_bind] in Hb;
            [discriminate
            | injection Hb as ->;
              apply _get_y_aerodrome_Raise in Hy as [Hy|(m & Hy)]; discriminate]
        end.
Qed.

Lemma solidly_calc_exact_in_stable_raises_witness :
  solidly_calc_exact_in_stable 5 2 1000 1000 (10 ^ 18) (10 ^ 18) (mkFraction 1 2000)
  = Raise (ValueError "Invalid token_in identifier")
  /\ ((exists msg, ValueError "Invalid token_in identifier" = EVMRevertError msg)
      \/ (ValueError "Invalid token_in identifier"
          = ValueError "Invalid token_in identifier" /\ 2 <> 0 /\ 2 <> 1)).
Proof.
  assert (H : solidly_calc_exact_in_stable 5 2 1000 1000 (10 ^ 18) (10 ^ 18)
                (mkFraction 1 2000)
              = Raise (ValueError "Invalid token_in identifier"))
    by (vm_compute; reflexivity).
  split; [exact H|].
  exact (solidly_calc_exact_in_stable_raises 5 2 1000 1000 (10 ^ 18) (10 ^ 18)
           (mkFraction 1 2000) _ H).
Defined.

(** X13: when either decimals factor is zero, [solidly_calc_exact_in_stable]
    raises [EVMRevertError] with the message "Division by zero", whatever
    the other arguments, an invalid [token_in] included. *)
Theorem solidly_calc_exact_in_stable_zero_decimals
    (amount_in token_in reserves0 reserves1 decimals0 decimals1 : Z) (fee : Fraction) :
  decimals0 = 0 \/ decimals1 = 0 ->
  solidly_calc_exact_in_stable amount_in token_in reserves0 reserves1
    decimals0 decimals1 fee = Raise (EVMRevertError "Division by zero").
Proof.
  intros Hd. unfold solidly_calc_exact_in_stable.
  apply except_ZeroDivisionError_caught.
  unfold solidly_calc_exact_in_stable_body, _k_aerodrome.
  destruct (Z.eq_dec decimals0 0) as [-> | Hd0]; [reflexivity|].
  destruct Hd as [Hd | ->]; [contradiction|].
  rewrite (floordiv_Ok (reserves0 * 10 ^ 18) decimals0) by assumption. reflexivity.
Qed.

Lemma solidly_calc_exact_in_stable_zero_decimals_witness :
  solidly_calc_exact_in_stable 5 7 1000 1000 (10 ^ 18) 0 (mkFraction 1 2000)
  = Raise (EVMRevertError "Division by zero").
Proof.
  apply solidly_calc_exact_in_stable_zero_decimals. right. reflexivity.
Defined.

Lemma _get_y_aerodrome_at_target (x0 xy y decimals0 decimals1 : Z) :
  _f_aerodrome x0 y = xy -> _d x0 y <> 0 ->
  _get_y_aerodrome x0 xy y decimals0 decimals1 = Ok y.
Proof.
  intros Hk Hd. unfold _get_y_aerodrome.
  apply (for_range_Return _ _ 255 0 y y); [lia | reflexivity |].
  unfold _get_y_aerodrome_body. rewrite Hk, Z.ltb_irrefl.
  rewrite floordiv_Ok by exact Hd. cbn [mbind result_bind].
  rewrite Z.sub_diag, Z.mul_0_l, Z.div_0_l by exact Hd.
  rewrite !Z.eqb_refl. reflexivity.
Qed.

(** X14: a zero input to a stable pool whose pre-swap invariant evaluates
    and whose derivative proxy is not zero at the scaled reserves buys
    nothing: the result is 0. *)
Theorem solidly_calc_exact_in_stable_zero_input
    (token_in reserves0 reserves1 decimals0 decimals1 xy : Z) (fee : Fraction) :
  token_in = 0 \/ token_in = 1 ->
  _k_aerodrome reserves0 reserves1 decimals0 decimals1 = Ok xy ->
  _d (scaled (if token_in =? 0 then reserves0 else reserves1)
             (if token_in =? 0 then decimals0 else decimals1))
     (scaled (if token_in =? 0 then reserves1 else reserves0)
             (if token_in =? 0 then decimals1 else decimals0)) <> 0 ->
  solidly_calc_exact_in_stable 0 token_in reserves0 reserves1 decimals0 decimals1 fee
  = Ok 0.
Proof.
  intros Htok Hk Hd. unfold solidly_calc_exact_in_stable.
  unfold solidly_calc_exact_in_stable_body. fold (after_fee 0 fee).
  rewrite after_fee_0, Hk. cbn [mbind result_bind].
  destruct (_k_aerodrome_inv _ _ _ _ _ Hk) as (Hd0 & Hd1 & Hxy).
  rewrite !floordiv_Ok by assumption. cbn [mbind result_bind].
  fold (scaled reserves0 decimals0) (scaled reserves1 decimals1).
  rewrite !Z.mul_0_l, !Z.div_0_l by assumption.
  destruct Htok as [-> | ->]; cbn [Z.eqb Pos.eqb mbind result_bind] in *;
    rewrite Z.add_0_l.
  - rewrite _get_y_aerodrome_at_target by (auto).
    cbn [mbind result_bind except_ZeroDivisionError].
    now rewrite Z.sub_diag.
  - rewrite _get_y_aerodrome_at_target
      by (auto; rewrite _f_aerodrome_sym; auto).
    cbn [mbind result_bind except_ZeroDivisionError].
    now rewrite Z.sub_diag.
Qed.

Lemma solidly_calc_exact_in_stable_zero_input_witness :
  solidly_calc_exact_in_stable 0 1 (2000000 * 10 ^ 6) (1990000 * 10 ^ 18)
    (10 ^ 6) (10 ^ 18) (mkFraction 1 2000) = Ok 0.
Proof.
  apply (solidly_calc_exact_in_stable_zero_input 1 (2000000 * 10 ^ 6)
           (1990000 * 10 ^ 18) (10 ^ 6) (10 ^ 18)
           31681198000000000000000000000000000000000000).
  - right. reflexivity.
  - vm_compute. reflexivity.
  - vm_compute. discriminate.
Defined.

(** X15: with 18-decimal tokens the stable solver pays the largest amount
    the invariant allows: the post-swap invariant equals the pre-swap one, or
    paying one unit more would leave it below. *)
Theorem solidly_calc_exact_in_stable_pays_maximum_18_decimals
    (amount_in token_in reserves0 reserves1 : Z) (fee : Fraction)
    (amount_out k_before : Z) :
  solidly_calc_exact_in_stable amount_in token_in reserves0 reserves1
    (10 ^ 18) (10 ^ 18) fee = Ok amount_out ->
  _k_aerodrome reserves0 reserves1 (10 ^ 18) (10 ^ 18) = Ok k_before ->
  post_swap_k amount_in token_in reserves0 reserves1 (10 ^ 18) (10 ^ 18) fee amount_out
  = k_before
  \/ post_swap_k amount_in token_in reserves0 reserves1 (10 ^ 18) (10 ^ 18) fee
       (amount_out + 1) < k_before.
Proof.
  intros H Hk. unfold solidly_calc_exact_in_stable in H.
  apply except_ZeroDivisionError_Ok in H.
  unfold solidly_calc_exact_in_stable_body in H. fold (after_fee amount_in fee) in H.
  rewrite Hk in H. cbn [mbind result_bind] in H.
  rewrite !floordiv_Ok in H by lia. cbn [mbind result_bind] in H.
  fold (scaled reserves0 (10 ^ 18)) (scaled reserves1 (10 ^ 18)) in H.
  unfold post_swap_k. rewrite !scaled_18 in *.
  destruct (token_in =? 0).
  - fold (scaled (after_fee amount_in fee) (10 ^ 18)) in H.
    rewrite scaled_18 in H. cbn [mbind result_bind] in H.
    inv_bind H. injection H as <-.
    apply _get_y_aerodrome_Ok_inv in Ha as (yi & Hb).
    apply _get_y_aerodrome_body_Return_minimal in Hb.
    fold (scaled (reserves1 - a) (10 ^ 18)). rewrite scaled_18.
    replace (reserves1 - (reserves1 - a)) with a by lia.
    replace (reserves1 - (reserves1 - a + 1)) with (a - 1) by lia. exact Hb.
  - destruct (token_in =? 1); [|discriminate].
    fold (scaled (after_fee amount_in fee) (10 ^ 18)) in H.
    rewrite scaled_18 in H. cbn [mbind result_bind] in H.
    inv_bind H. injection H as <-.
    apply _get_y_aerodrome_Ok_inv in Ha as (yi & Hb).
    apply _get_y_aerodrome_body_Return_minimal in Hb.
    fold (scaled (reserves0 - a) (10 ^ 18)). rewrite scaled_18.
    replace (reserves0 - (reserves0 - a)) with a by lia.
    replace (reserves0 - (reserves0 - a + 1)) with (a - 1) by lia. exact Hb.
Qed.

Lemma solidly_calc_exact_in_stable_pays_maximum_18_decimals_witness :
  post_swap_k (10000 * 10 ^ 18) 0 (2000000 * 10 ^ 18) (2000000 * 10 ^ 18)
    (10 ^ 18) (10 ^ 18) (mkFraction 1 2500) 9995999375999478212499
  = 32 * 10 ^ 42
  \/ post_swap_k (10000 * 10 ^ 18) 0 (2000000 * 10 ^ 18) (2000000 * 10 ^ 18)
       (10 ^ 18) (10 ^ 18) (mkFraction 1 2500) (9995999375999478212499 + 1)
     < 32 * 10 ^ 42.
Proof.
  apply solidly_calc_exact_in_stable_pays_maximum_18_decimals.
  - vm_compute. reflexivity.
  - vm_compute. reflexivity.
Defined.

(** ** The two iterations at a fixed point, and the errors of [_get_y_camelot] *)

Lemma _get_y_camelot_at_target (x_0 y : Z) :
  _d x_0 y <> 0 -> _get_y_camelot x_0 (_f_camelot x_0 y) y = Ok y.
Proof.
  intros Hd. unfold _get_y_camelot.
  apply (for_range_Return _ _ 255 0 y y); [lia | reflexivity |].
  unfold _get_y_camelot_body, _get_y_camelot_update. cbv zeta.
  rewrite Z.ltb_irrefl, floordiv_Ok by exact Hd. cbn [mbind result_bind].
  rewrite Z.sub_diag, Z.mul_0_l, Z.div_0_l by exact Hd.
  rewrite Z.sub_0_r, Z.ltb_irrefl, Z.sub_diag. reflexivity.
Qed.

(** X26: a start value that is already on the curve is returned unchanged, at
    the first pass, by both iterations, when the derivative proxy [_d] is not
    zero there. *)
Theorem get_y_start_on_curve (x0 y decimals0 decimals1 : Z) :
  _d x0 y <> 0 ->
  _get_y_aerodrome x0 (_f_aerodrome x0 y) y decimals0 decimals1 = Ok y
  /\ _get_y_camelot x0 (_f_camelot x0 y) y = Ok y.
Proof.
  intros Hd. split.
  - now apply _get_y_aerodrome_at_target.
  - now apply _get_y_camelot_at_target.
Qed.

Lemma get_y_start_on_curve_witness :
  _get_y_aerodrome (10 ^ 18) (_f_aerodrome (10 ^ 18) (3 * 10 ^ 18)) (3 * 10 ^ 18)
    (10 ^ 18) (10 ^ 6) = Ok (3 * 10 ^ 18)
  /\ _get_y_camelot (10 ^ 18) (_f_camelot (10 ^ 18) (3 * 10 ^ 18)) (3 * 10 ^ 18)
     = Ok (3 * 10 ^ 18).
Proof.
  apply (get_y_start_on_curve (10 ^ 18) (3 * 10 ^ 18) (10 ^ 18) (10 ^ 6)).
  vm_compute. discriminate.
Defined.

Lemma _get_y_camelot_body_Raise (x_0 xy y : Z) (e : exn) :
  _get_y_camelot_body x_0 xy y = Raise e -> e = ZeroDivisionError /\ _d x_0 y = 0.
Proof.
  unfold _get_y_camelot_body, _get_y_camelot_update. cbv zeta.
  destruct (_f_camelot x_0 y <? xy).
  - destruct (floordiv ((xy - _f_camelot x_0 y) * 10 ^ 18) (_d x_0 y)) as [dy|e0] eqn:H0;
      cbn [mbind result_bind].
    + destruct (y <? y + dy); [destruct (_ <=? 1) | destruct (_ <=? 1)]; discriminate.
    + intros [= <-]. now apply floordiv_Raise in H0.
  - destruct (floordiv ((_f_camelot x_0 y - xy) * 10 ^ 18) (_d x_0 y)) as [dy|e0] eqn:H0;
      cbn [mbind result_bind].
    + destruct (y <? y - dy); [destruct (_ <=? 1) | destruct (_ <=? 1)]; discriminate.
    + intros [= <-]. now apply floordiv_Raise in H0.
Qed.

(** X27: [_get_y_camelot] raises nothing but [ZeroDivisionError], and raises
    it exactly when [_d] is zero at the value some pass starts from; in
    particular a run that finds no fixed point in 255 passes raises nothing. *)
Theorem get_y_camelot_raises (x_0 xy y : Z) (e : exn) :
  _get_y_camelot x_0 xy y = Raise e
  <-> e = ZeroDivisionError
      /\ exists (i : nat) (yi : Z),
           (i < 255)%nat
           /\ loop_iterate (_get_y_camelot_body x_0 xy) i y = Some yi
           /\ _d x_0 yi = 0.
Proof.
  unfold _get_y_camelot. split.
  - intros Hr.
    destruct (for_range_cases (_get_y_camelot_body x_0 xy) (fun y => Ok y) 255 y)
      as [(i & yi & r' & Hlt & Hi & Hb & Hres)
         |[(i & yi & e' & Hlt & Hi & Hb & Hres)|(yn & Hn & Hres)]];
      rewrite Hres in Hr; try discriminate.
    injection Hr as ->. apply _get_y_camelot_body_Raise in Hb as (-> & Hd).
    split; [reflexivity|]. eauto.
  - intros (-> & i & yi & Hlt & Hi & Hd).
    apply (for_range_Raise _ _ 255 i y yi); [exact Hlt | exact Hi |].
    unfold _get_y_camelot_body, _get_y_camelot_update, floordiv. cbv zeta.
    rewrite Hd. cbn [Z.eqb]. now destruct (_ <? xy).
Qed.

Lemma get_y_camelot_raises_witness :
  _get_y_camelot 0 1 0 = Raise ZeroDivisionError.
Proof.
  apply (get_y_camelot_raises 0 1 0 ZeroDivisionError).
  split; [reflexivity|]. exists 0%nat, 0. repeat split. lia.
Defined.

(** ** The volatile solver, further *)

(** X16: a volatile swap never shrinks the product of the reserves: with
    the post-fee input added to the input reserve and the output taken from
    the output reserve the product is at least what it was, and so it is
    with the whole input added, for a fee fraction in [0, 1) and non-negative
    amounts. *)
Theorem solidly_calc_exact_in_volatile_constant_product
    (amount_in token_in reserves0 reserves1 : Z) (fee : Fraction) (amount_out : Z) :
  let reserve_in := if token_in =? 0 then reserves0 else reserves1 in
  let reserve_out := if token_in =? 0 then reserves1 else reserves0 in
  0 < reserve_in + after_fee amount_in fee ->
  solidly_calc_exact_in_volatile amount_in token_in reserves0 reserves1 fee
  = Ok amount_out ->
  reserve_in * reserve_out
  <= (reserve_in + after_fee amount_in fee) * (reserve_out - amount_out)
  /\ (0 <= amount_in -> 0 <= numerator fee < Z.pos (denominator fee) ->
      0 <= reserve_in -> 0 <= reserve_out ->
      reserve_in * reserve_out <= (reserve_in + amount_in) * (reserve_out - amount_out)).
Proof.
  intros reserve_in reserve_out Hden H.
  assert (Hout : amount_out
                 = after_fee amount_in fee * reserve_out
                   / (reserve_in + after_fee amount_in fee)).
  { unfold solidly_calc_exact_in_volatile in H. fold (after_fee amount_in fee) in H.
    subst reserve_in reserve_out.
    destruct (token_in =? 0); [|destruct (token_in =? 1); [|discriminate]];
      cbn [mbind result_bind] in H; apply floordiv_inv in H as (_ & ->); reflexivity. }
  clearbody reserve_in reserve_out.
  pose proof (Z.mul_div_le (after_fee amount_in fee * reserve_out)
                (reserve_in + after_fee amount_in fee) Hden) as Hle.
  rewrite <- Hout in Hle.
  split; [nia|].
  intros Hamt Hfee Hin Hrout.
  pose proof (after_fee_nonneg amount_in fee Hfee Hamt) as Ha.
  assert (Hfa : after_fee amount_in fee <= amount_in).
  { unfold after_fee.
    assert (0 <= amount_in * numerator fee / Z.pos (denominator fee)); [|lia].
    apply Z.div_pos; nia. }
  assert (Hlt : amount_out <= reserve_out).
  { rewrite Hout. apply Z.div_le_upper_bound; nia. }
  nia.
Qed.

Lemma solidly_calc_exact_in_volatile_constant_product_witness :
  1000000 * 2000000 <= (1000000 + after_fee 5000 (mkFraction 3 1000)) * (2000000 - 9920)
  /\ 1000000 * 2000000 <= (1000000 + 5000) * (2000000 - 9920).
Proof.
  destruct (solidly_calc_exact_in_volatile_constant_product
              5000 0 1000000 2000000 (mkFraction 3 1000) 9920) as (H1 & H2).
  - vm_compute. reflexivity.
  - vm_compute. reflexivity.
  - split; [exact H1|]. apply H2; cbn; lia.
Defined.

(** X17: [solidly_calc_exact_in_volatile] raises exactly in two cases: the
    [ValueError] of the identifier check for a [token_in] other than 0 and 1,
    and an uncaught [ZeroDivisionError] when the input reserve plus the
    post-fee input is zero. *)
Theorem solidly_calc_exact_in_volatile_raises
    (amount_in token_in reserves0 reserves1 : Z) (fee : Fraction) (e : exn) :
  solidly_calc_exact_in_volatile amount_in token_in reserves0 reserves1 fee = Raise e
  <-> (token_in <> 0 /\ token_in <> 1
       /\ e = ValueError "Invalid token_in identifier")
      \/ ((token_in = 0 \/ token_in = 1)
          /\ (if token_in =? 0 then reserves0 else reserves1)
             + after_fee amount_in fee = 0
          /\ e = ZeroDivisionError).
Proof.
  unfold solidly_calc_exact_in_volatile. fold (after_fee amount_in fee).
  destruct (Z.eqb_spec token_in 0) as [-> | H0];
    [|destruct (Z.eqb_spec token_in 1) as [-> | H1]];
    cbn [mbind result_bind]; unfold floordiv.
  - destruct (Z.eqb_spec (reserves0 + after_fee amount_in fee) 0); split.
    + intros [= <-]. right. auto.
    + intros [(H & _)|(_ & _ & ->)]; [lia | reflexivity].
    + discriminate.
    + intros [(H & _)|(_ & H & _)]; lia.
  - destruct (Z.eqb_spec (reserves1 + after_fee amount_in fee) 0); split.
    + intros [= <-]. right. auto.
    + intros [(_ & H & _)|(_ & _ & ->)]; [lia | reflexivity].
    + discriminate.
    + intros [(_ & H & _)|(_ & H & _)]; lia.
  - split.
    + intros [= <-]. left. auto.
    + intros [(_ & _ & ->)|([H|H] & _)]; [reflexivity | lia | lia].
Qed.

(** ** The pool entry point and the setters, further *)

Lemma set_state_state (h : gmap loc AerodromeV2PoolState) (self : AerodromeV2Pool)
    (new_state : AerodromeV2PoolState) :
  state (set_state h self new_state).1 (set_state h self new_state).2 = Some new_state.
Proof. pose proof (set_state_spec h self new_state) as H. now destruct (set_state _ _ _). Qed.

Lemma set_state_fields (h : gmap loc AerodromeV2PoolState) (self : AerodromeV2Pool)
    (new_state : AerodromeV2PoolState) :
  let self' := (set_state h self new_state).2 in
  token0 self' = token0 self /\ token1 self' = token1 self
  /\ stable self' = stable self /\ fee self' = fee self.
Proof. unfold set_state, alloc. cbn. auto. Qed.

Lemma set_state_old (h : gmap loc AerodromeV2PoolState) (self : AerodromeV2Pool)
    (new_state : AerodromeV2PoolState) (l : loc) (s : AerodromeV2PoolState) :
  h !! l = Some s -> (set_state h self new_state).1 !! l = Some s.
Proof.
  pose proof (set_state_spec h self new_state) as H.
  destruct (set_state _ _ _). cbn. intros Hl. now apply H.
Qed.

(** X18: called with an override state, the entry point gives what it
    gives without one on a pool whose live state has the same reserves, and
    its result does not depend on the store. *)
Theorem calculate_tokens_out_override_state
    (calc_exact_in_stable : Z -> Z -> Z -> Z -> Z -> Z -> Fraction -> result Z)
    (general_calc_exact_in_volatile : Z -> Z -> Z -> Z -> Fraction -> result Z)
    (h : gmap loc AerodromeV2PoolState) (self : AerodromeV2Pool)
    (current_state override_state : AerodromeV2PoolState)
    (token_in : Erc20Token) (token_in_quantity : Z) :
  let facade :=
    calculate_tokens_out_from_tokens_in calc_exact_in_stable
      general_calc_exact_in_volatile in
  state h self = Some current_state ->
  reserves_token0 override_state = reserves_token0 current_state ->
  reserves_token1 override_state = reserves_token1 current_state ->
  facade h self token_in token_in_quantity (Some override_state)
  = facade h self token_in token_in_quantity None
  /\ forall h', facade h' self token_in token_in_quantity (Some override_state)
                = facade h self token_in token_in_quantity (Some override_state).
Proof.
  intros facade Hst H0 H1. subst facade.
  unfold calculate_tokens_out_from_tokens_in, get_reserves_token0, get_reserves_token1.
  rewrite Hst, H0, H1. split; [|intros h']; reflexivity.
Qed.

Lemma calculate_tokens_out_override_state_witness :
  calculate_tokens_out_from_tokens_in solidly_calc_exact_in_stable
    solidly_calc_exact_in_volatile ∅ example_pool USDC 500 (Some example_state)
  = calculate_tokens_out_from_tokens_in solidly_calc_exact_in_stable
      solidly_calc_exact_in_volatile {[ 1%positive := example_state ]}
      example_pool USDC 500 None.
Proof.
  assert (Hst : state {[ 1%positive := example_state ]} example_pool
                = Some example_state) by reflexivity.
  pose proof (calculate_tokens_out_override_state solidly_calc_exact_in_stable
                solidly_calc_exact_in_volatile {[ 1%positive := example_state ]}
                example_pool example_state example_state USDC 500
                Hst eq_refl eq_refl) as (H1 & H2).
  rewrite <- H1. apply H2.
Defined.

(** X19: after the [reserves_token0] setter, the entry point without
    override gives what it gave before the setter with an override state
    holding the new reserve. *)
Theorem calculate_tokens_out_after_setter
    (calc_exact_in_stable : Z -> Z -> Z -> Z -> Z -> Z -> Fraction -> result Z)
    (general_calc_exact_in_volatile : Z -> Z -> Z -> Z -> Fraction -> result Z)
    (h h' : gmap loc AerodromeV2PoolState) (self self' : AerodromeV2Pool)
    (current_state : AerodromeV2PoolState) (new_reserves : Z)
    (token_in : Erc20Token) (token_in_quantity : Z) :
  let facade :=
    calculate_tokens_out_from_tokens_in calc_exact_in_stable
      general_calc_exact_in_volatile in
  state h self = Some current_state ->
  set_reserves_token0 h self new_reserves = Some (h', self') ->
  facade h' self' token_in token_in_quantity None
  = facade h self token_in token_in_quantity
      (Some {| pool := pool current_state;
               reserves_token0 := new_reserves;
               reserves_token1 := reserves_token1 current_state |}).
Proof.
  intros facade Hst Hset. subst facade.
  unfold set_reserves_token0 in Hset. rewrite Hst in Hset.
  cbn [mbind option_bind] in Hset. injection Hset as Hset.
  subst h' self'.
  unfold calculate_tokens_out_from_tokens_in, get_reserves_token0,
    get_reserves_token1, state.
  cbn [set__state _state token0 token1 stable fee].
  rewrite lookup_insert_eq. reflexivity.
Qed.

Lemma calculate_tokens_out_after_setter_witness :
  exists h' self',
    set_reserves_token0 {[ 1%positive := example_state ]} example_pool 1500
    = Some (h', self')
    /\ calculate_tokens_out_from_tokens_in solidly_calc_exact_in_stable
         solidly_calc_exact_in_volatile h' self' USDC 500 None
       = Some (Ok 299).
Proof.
  destruct (set_reserves_token0 {[ 1%positive := example_state ]} example_pool 1500)
    as [[h' self']|] eqn:Hset; [|discriminate Hset].
  exists h', self'. split; [reflexivity|].
  assert (Hst : state {[ 1%positive := example_state ]} example_pool
                = Some example_state) by reflexivity.
  rewrite (calculate_tokens_out_after_setter solidly_calc_exact_in_stable
             solidly_calc_exact_in_volatile {[ 1%positive := example_state ]} h'
             example_pool self' example_state 1500 USDC 500 Hst Hset).
  vm_compute. reflexivity.
Defined.

(** X20: the two setters one after the other leave a state with both new
    reserves and the old [pool], in either order; the getters read the new
    values, and the state object the pool had before is still in the store,
    unchanged. *)
Theorem reserve_setters_compose
    (h : gmap loc AerodromeV2PoolState) (self : AerodromeV2Pool)
    (current_state : AerodromeV2PoolState) (new_reserves0 new_reserves1 : Z) :
  state h self = Some current_state ->
  exists h1 self1 h2 self2 h1' self1' h2' self2',
    set_reserves_token0 h self new_reserves0 = Some (h1, self1)
    /\ set_reserves_token1 h1 self1 new_reserves1 = Some (h2, self2)
    /\ set_reserves_token1 h self new_reserves1 = Some (h1', self1')
    /\ set_reserves_token0 h1' self1' new_reserves0 = Some (h2', self2')
    /\ state h2 self2
       = Some {| pool := pool current_state;
                 reserves_token0 := new_reserves0;
                 reserves_token1 := new_reserves1 |}
    /\ state h2' self2' = state h2 self2
    /\ get_reserves_token0 h2 self2 = Some new_reserves0
    /\ get_reserves_token1 h2 self2 = Some new_reserves1
    /\ state h2 self = Some current_state.
Proof.
  intros Hcur.
  set (s1 := {| pool := pool current_state; reserves_token0 := new_reserves0;
                reserves_token1 := reserves_token1 current_state |}).
  set (s1' := {| pool := pool current_state;
                 reserves_token0 := reserves_token0 current_state;
                 reserves_token1 := new_reserves1 |}).
  set (s2 := {| pool := pool current_state; reserves_token0 := new_reserves0;
                reserves_token1 := new_reserves1 |}).
  pose proof (set_state_state h self s1) as Hst1.
  pose proof (set_state_state h self s1') as Hst1'.
  pose proof (set_state_old h self s1) as Hold1.
  destruct (set_state h self s1) as [h1 self1] eqn:E1.
  destruct (set_state h self s1') as [h1' self1'] eqn:E1'.
  cbn [fst snd] in *.
  pose proof (set_state_state h1 self1 s2) as Hst2.
  pose proof (set_state_state h1' self1' s2) as Hst2'.
  pose proof (set_state_old h1 self1 s2) as Hold2.
  destruct (set_state h1 self1 s2) as [h2 self2] eqn:E2.
  destruct (set_state h1' self1' s2) as [h2' self2'] eqn:E2'.
  cbn [fst snd] in *.
  exists h1, self1, h2, self2, h1', self1', h2', self2'.
  repeat split.
  - unfold set_reserves_token0. rewrite Hcur. cbn [mbind option_bind].
    fold s1. now rewrite E1.
  - unfold set_reserves_token1. rewrite Hst1. cbn [mbind option_bind].
    cbn [pool reserves_token0 s1]. fold s2. now rewrite E2.
  - unfold set_reserves_token1. rewrite Hcur. cbn [mbind option_bind].
    fold s1'. now rewrite E1'.
  - unfold set_reserves_token0. rewrite Hst1'. cbn [mbind option_bind].
    cbn [pool reserves_token1 s1']. fold s2. now rewrite E2'.
  - exact Hst2.
  - now rewrite Hst2'.
  - unfold get_reserves_token0. now rewrite Hst2.
  - unfold get_reserves_token1. now rewrite Hst2.
  - apply Hold2, Hold1, Hcur.
Qed.

Lemma reserve_setters_compose_witness :
  exists h2 self2,
    state h2 self2 = Some (mkAerodromeV2PoolState (pool example_state) 1500 2500)
    /\ state h2 example_pool = Some example_state.
Proof.
  assert (Hst : state {[ 1%positive := example_state ]} example_pool
                = Some example_state) by reflexivity.
  destruct (reserve_setters_compose {[ 1%positive := example_state ]} example_pool
              example_state 1500 2500 Hst)
    as (h1 & self1 & h2 & self2 & _ & _ & _ & _ & _ & _ & _ & _ & H & _ & _ & _ & Hold).
  exists h2, self2. auto.
Defined.

(** ** Subscribers *)

Section Publisher.
Context {Message : Type}.

Lemma _notify_subscribers_lookup (_subscribers : gset loc) (self : loc)
    (message : Message) (inboxes : gmap loc (list (loc * Message))) (s : loc) :
  _notify_subscribers _subscribers self message inboxes !! s
  = if decide (s ∈ _subscribers)
    then (fun inbox => inbox ++ [(self, message)]) <$> inboxes !! s
    else inboxes !! s.
Proof.
  unfold _notify_subscribers. revert s.
  set (f := fun subscriber acc => FakeSubscriber_notify subscriber self message acc).
  set (P := fun (acc : gmap loc (list (loc * Message))) (X : gset loc) =>
              forall s,
                acc !! s = if decide (s ∈ X)
                           then (fun inbox => inbox ++ [(self, message)])
                                  <$> inboxes !! s
                           else inboxes !! s).
  change (P (set_fold f inboxes _subscribers) _subscribers).
  apply (set_fold_ind_L P f inboxes); subst P f; cbv beta.
  - intros s. rewrite decide_False by apply not_elem_of_empty. reflexivity.
  - intros x X acc Hx IH s. unfold FakeSubscriber_notify.
    destruct (decide (s = x)) as [-> | Hne].
    + rewrite lookup_alter_eq, IH.
      rewrite (decide_False (P := x ∈ X)) by exact Hx.
      rewrite decide_True by (apply elem_of_union_l, elem_of_singleton; reflexivity).
      reflexivity.
    + rewrite lookup_alter_ne by congruence. rewrite IH.
      destruct (decide (s ∈ X)) as [Hs|Hs].
      * rewrite decide_True by (apply elem_of_union_r; exact Hs). reflexivity.
      * rewrite decide_False
          by (rewrite elem_of_union, elem_of_singleton; tauto).
        reflexivity.
Qed.

(** X21: [_notify_subscribers] appends exactly one record of sender and
    message to the inbox of every subscriber of the set, whatever the order
    the set yields them in, leaves every other inbox as it was, and creates
    no inbox. *)
Theorem notify_subscribers_delivers_once (_subscribers : gset loc) (self : loc)
    (message : Message) (inboxes : gmap loc (list (loc * Message))) (s : loc) :
  _notify_subscribers _subscribers self message inboxes !! s
  = if decide (s ∈ _subscribers)
    then (fun inbox => inbox ++ [(self, message)]) <$> inboxes !! s
    else inboxes !! s.
Proof. apply _notify_subscribers_lookup. Qed.

(** X22: subscribing twice is subscribing once, the subscriber gets one copy
    of a message; after [unsubscribe] it gets none, also when it had been
    there before the [subscribe]; and [unsubscribe] of an object that is not
    subscribed raises nothing and changes nothing. *)
Theorem subscribe_unsubscribe_notify (_subscribers : gset loc) (self : loc)
    (message : Message) (inboxes : gmap loc (list (loc * Message)))
    (subscriber : loc) :
  subscribe (subscribe _subscribers subscriber) subscriber
  = subscribe _subscribers subscriber
  /\ _notify_subscribers (subscribe (subscribe _subscribers subscriber) subscriber)
       self message inboxes !! subscriber
     = (fun inbox => inbox ++ [(self, message)]) <$> inboxes !! subscriber
  /\ _notify_subscribers (unsubscribe (subscribe _subscribers subscriber) subscriber)
       self message inboxes !! subscriber
     = inboxes !! subscriber
  /\ unsubscribe (subscribe _subscribers subscriber) subscriber
     = unsubscribe _subscribers subscriber
  /\ unsubscribe (unsubscribe _subscribers subscriber) subscriber
     = unsubscribe _subscribers subscriber.
Proof.
  rewrite !_notify_subscribers_lookup. unfold subscribe, unsubscribe.
  split; [|split; [|split; [|split]]].
  - apply set_eq. intros x. rewrite !elem_of_union, elem_of_singleton. tauto.
  - rewrite decide_True; [reflexivity|].
    apply elem_of_union_l, elem_of_singleton. reflexivity.
  - rewrite decide_False; [reflexivity|].
    rewrite elem_of_difference, elem_of_singleton. tauto.
  - apply set_eq. intros x.
    rewrite !elem_of_difference, elem_of_union, elem_of_singleton. tauto.
  - apply set_eq. intros x. rewrite !elem_of_difference, elem_of_singleton. tauto.
Qed.
End Publisher.

(** ** The balance ledger of a transaction *)

Section AdjustBalance.
Variable toChecksumAddress : string -> result string.

Lemma _adjust_balance_lookup (balance : gmap string Z) (token _token : string)
    (amount : Z) :
  toChecksumAddress token = Ok _token ->
  exists balance',
    _adjust_balance toChecksumAddress balance token amount = Ok balance'
    /\ forall k,
         balance' !! k
         = if decide (k = _token)
           then (if default 0 (balance !! _token) + amount =? 0 then None
                 else Some (default 0 (balance !! _token) + amount))
           else balance !! k.
Proof.
  intros Ht. unfold _adjust_balance. rewrite Ht. cbn [mbind result_bind].
  eexists; split; [reflexivity|]. intros k.
  set (b1 := match balance !! _token with
             | Some _ => balance
             | None => <[_token:=0]> balance
             end).
  assert (Hb1 : default 0 (b1 !! _token) = default 0 (balance !! _token)).
  { subst b1. destruct (balance !! _token) eqn:E; [now rewrite E|].
    now rewrite lookup_insert_eq. }
  assert (Hb1k : forall j, j <> _token -> b1 !! j = balance !! j).
  { intros j Hj. subst b1. destruct (balance !! _token); [reflexivity|].
    now rewrite lookup_insert_ne. }
  rewrite lookup_insert_eq. cbn [default]. rewrite Hb1.
  destruct (decide (k = _token)) as [-> | Hk].
  - destruct (_ =? 0); [apply lookup_delete_eq | apply lookup_insert_eq].
  - destruct (_ =? 0);
      [rewrite lookup_delete_ne by congruence|];
      rewrite lookup_insert_ne by congruence; auto.
Qed.

(** X23: when the address is accepted, [_adjust_balance] returns; the
    balance of the token, read as 0 when absent, has grown by the amount; the
    token is never left with a stored 0; every other token is untouched; and
    a ledger with no stored 0 stays so. *)
Theorem adjust_balance_ledger (balance : gmap string Z) (token _token : string)
    (amount : Z) :
  toChecksumAddress token = Ok _token ->
  exists balance',
    _adjust_balance toChecksumAddress balance token amount = Ok balance'
    /\ default 0 (balance' !! _token) = default 0 (balance !! _token) + amount
    /\ balance' !! _token <> Some 0
    /\ (forall k, k <> _token -> balance' !! k = balance !! k)
    /\ ((forall k, balance !! k <> Some 0) -> forall k, balance' !! k <> Some 0).
Proof.
  intros Ht.
  destruct (_adjust_balance_lookup balance token _token amount Ht) as (b' & Hb' & Hl).
  exists b'. split; [exact Hb'|].
  assert (Ht' : b' !! _token <> Some 0
                /\ default 0 (b' !! _token) = default 0 (balance !! _token) + amount).
  { rewrite (Hl _token). rewrite decide_True by reflexivity.
    destruct (Z.eqb_spec (default 0 (balance !! _token) + amount) 0) as [E|E]; simpl.
    - split; [discriminate | lia].
    - split; [congruence | reflexivity]. }
  destruct Ht' as (Hnz & Hsum).
  split; [exact Hsum|]. split; [exact Hnz|]. split.
  - intros k Hk. rewrite (Hl k). now rewrite decide_False.
  - intros Hinv k. destruct (decide (k = _token)) as [-> | Hk]; [exact Hnz|].
    rewrite (Hl k), decide_False by exact Hk. apply Hinv.
Qed.

(** X24: adjusting by an amount and then by its opposite gives back the
    ledger, provided it did not hold a stored 0 for the token. *)
Theorem adjust_balance_round_trip (balance : gmap string Z) (token _token : string)
    (amount : Z) :
  toChecksumAddress token = Ok _token ->
  balance !! _token <> Some 0 ->
  (balance' ← _adjust_balance toChecksumAddress balance token amount;
   _adjust_balance toChecksumAddress balance' token (- amount)) = Ok balance.
Proof.
  intros Ht Hnz.
  destruct (_adjust_balance_lookup balance token _token amount Ht) as (b1 & Hb1 & Hl1).
  destruct (_adjust_balance_lookup b1 token _token (- amount) Ht) as (b2 & Hb2 & Hl2).
  rewrite Hb1. cbn [mbind result_bind]. rewrite Hb2. f_equal.
  apply map_eq. intros k. rewrite (Hl2 k).
  destruct (decide (k = _token)) as [-> | Hk].
  - rewrite (Hl1 _token), decide_True by reflexivity.
    destruct (balance !! _token) as [v|] eqn:Hv; simpl;
      repeat match goal with
             | |- context [default 0 (if ?a =? 0 then _ else _)] =>
                 destruct (Z.eqb_spec a 0); simpl
             end;
      repeat match goal with
             | |- context [?a =? 0] => destruct (Z.eqb_spec a 0); simpl
             end;
      try reflexivity; try (f_equal; lia); try (exfalso; lia);
      exfalso; apply Hnz; f_equal; lia.
  - rewrite (Hl1 k). now rewrite decide_False.
Qed.

(** X25: two adjustments give the same ledger in either order, for
    different tokens and for the same one. *)
Theorem adjust_balance_commute (balance : gmap string Z)
    (token1 token2 _token1 _token2 : string) (amount1 amount2 : Z) :
  toChecksumAddress token1 = Ok _token1 ->
  toChecksumAddress token2 = Ok _token2 ->
  (b ← _adjust_balance toChecksumAddress balance token1 amount1;
   _adjust_balance toChecksumAddress b token2 amount2)
  = (b ← _adjust_balance toChecksumAddress balance token2 amount2;
     _adjust_balance toChecksumAddress b token1 amount1).
Proof.
  intros H1 H2.
  destruct (_adjust_balance_lookup balance token1 _token1 amount1 H1) as (b1 & Hb1 & Hl1).
  destruct (_adjust_balance_lookup b1 token2 _token2 amount2 H2) as (b12 & Hb12 & Hl12).
  destruct (_adjust_balance_lookup balance token2 _token2 amount2 H2) as (b2 & Hb2 & Hl2).
  destruct (_adjust_balance_lookup b2 token1 _token1 amount1 H1) as (b21 & Hb21 & Hl21).
  rewrite Hb1, Hb2. cbn [mbind result_bind]. rewrite Hb12, Hb21. f_equal.
  apply map_eq. intros k. rewrite (Hl12 k), (Hl21 k).
  rewrite (Hl1 _token2), (Hl2 _token1), (Hl1 k), (Hl2 k).
  destruct (decide (_token1 = _token2)) as [-> | Hne].
  - rewrite !(decide_True (P := _token2 = _token2)) by reflexivity.
    destruct (decide (k = _token2)) as [-> | Hk]; [|reflexivity].
    destruct (balance !! _token2) as [v|]; simpl;
      repeat match goal with
             | |- context [default 0 (if ?a =? 0 then _ else _)] =>
                 destruct (Z.eqb_spec a 0); simpl
             end;
      repeat match goal with
             | |- context [default 0 (if ?a =? 0 then _ else _)] =>
                 destruct (Z.eqb_spec a 0); simpl
             end;
      repeat match goal with
             | |- context [?a =? 0] => destruct (Z.eqb_spec a 0); simpl
             end; try reflexivity; try (f_equal; lia); exfalso; lia.
  - rewrite ?(decide_False (P := _token2 = _token1)) by congruence.
    destruct (decide (k = _token2)) as [-> | Hk2];
      destruct (decide (_ = _token1)) as [E | Hk1]; try congruence; reflexivity.
Qed.
End AdjustBalance.

Lemma adjust_balance_ledger_witness :
  exists balance',
    _adjust_balance (fun s => Ok s) {[ "WETH"%string := 5 ]} "WETH" (-5) = Ok balance'
    /\ default 0 (balance' !! "WETH"%string)
       = default 0 (({[ "WETH"%string := 5 ]} : gmap string Z) !! "WETH"%string) + -5
    /\ balance' !! "WETH"%string <> Some 0
    /\ (forall k, k <> "WETH"%string ->
        balance' !! k = ({[ "WETH"%string := 5 ]} : gmap string Z) !! k)
    /\ ((forall k, ({[ "WETH"%string := 5 ]} : gmap string Z) !! k <> Some 0) ->
        forall k, balance' !! k <> Some 0).
Proof.
  apply (adjust_balance_ledger (fun s => Ok s) {[ "WETH"%string := 5 ]}
           "WETH" "WETH" (-5)).
  reflexivity.
Defined.

Lemma adjust_balance_round_trip_witness :
  (balance' ← _adjust_balance (fun s => Ok s) {[ "WETH"%string := 5 ]} "USDC" 7;
   _adjust_balance (fun s => Ok s) balance' "USDC" (- 7))
  = Ok {[ "WETH"%string := 5 ]}.
Proof.
  apply (adjust_balance_round_trip (fun s => Ok s) {[ "WETH"%string := 5 ]}
           "USDC" "USDC" 7).
  - reflexivity.
  - vm_compute. discriminate.
Defined.

Lemma adjust_balance_commute_witness :
  (b ← _adjust_balance (fun s => Ok s) {[ "WETH"%string := 5 ]} "WETH" (-5);
   _adjust_balance (fun s => Ok s) b "USDC" 7)
  = (b ← _adjust_balance (fun s => Ok s) {[ "WETH"%string := 5 ]} "USDC" 7;
     _adjust_balance (fun s => Ok s) b "WETH" (-5)).
Proof.
  apply (adjust_balance_commute (fun s => Ok s) {[ "WETH"%string := 5 ]}
           "WETH" "USDC" "WETH" "USDC" (-5) 7); reflexivity.
Defined.
